(** * grpc-go: balancer / resolver registries, connectivity-state
      aggregation and the loadBalancingConfig selector

    A shallow embedding of
    - package [balancer]: the builder registry ([Register], [Get],
      [unregisterForTesting]) and [ConnectivityStateEvaluator];
    - package [resolver]: the builder registry by scheme;
    - package [internal/serviceconfig]: [BalancerConfig.UnmarshalJSON].

    Package-level maps (the two registries) are threaded explicitly as
    [gmap string Builder]; a pointer receiver is passed in and returned.
    [uint64] counters are integers with the wrap-around written out. *)

From Stdlib Require Import ZArith Lia Ascii.
From stdpp Require Import gmap strings list fin_maps.

(** ** Package connectivity *)

Module connectivity.

(** [connectivity.State], in the order of the Go constants. *)
Inductive State : Set :=
  | Idle
  | Connecting
  | Ready
  | TransientFailure
  | Shutdown.

#[global] Instance State_eq_dec : EqDecision State.
Proof. solve_decision. Defined.

End connectivity.

(** ** Unsigned 64-bit arithmetic *)

Module u64.

Local Open Scope Z_scope.

Definition modulus : Z := 2 ^ 64.

(** Reduction of an integer to its [uint64] representative. *)
Definition wrap (z : Z) : Z := z mod modulus.

Definition add (a b : Z) : Z := wrap (a + b).
Definition sub (a b : Z) : Z := wrap (a - b).
Definition mul (a b : Z) : Z := wrap (a * b).

(** The values a [uint64] variable can hold. *)
Definition in_range (z : Z) : Prop := 0 <= z < modulus.

End u64.

(** ** Package balancer: ConnectivityStateEvaluator *)

Module evaluator.

Import connectivity.
Local Open Scope Z_scope.

(** [type ConnectivityStateEvaluator struct { numReady, numConnecting uint64 }] *)
Record ConnectivityStateEvaluator : Set := mkCSE {
  numReady : Z;
  numConnecting : Z
}.

(** The zero value of the struct. *)
Definition fresh : ConnectivityStateEvaluator := mkCSE 0 0.

(** Both fields hold [uint64] values. *)
Definition wf (cse : ConnectivityStateEvaluator) : Prop :=
  u64.in_range (numReady cse) /\ u64.in_range (numConnecting cse).

(** [updateVal := 2*uint64(idx) - 1]: all-ones for [idx = 0], one for
    [idx = 1]. *)
Definition updateVal (idx : Z) : Z := u64.sub (u64.mul 2 idx) 1.

(** The body of the [for idx, state := range ...] loop: the [switch]. *)
Definition update (cse : ConnectivityStateEvaluator) (idx : Z) (state : State)
  : ConnectivityStateEvaluator :=
  match state with
  | Ready =>
      mkCSE (u64.add (numReady cse) (updateVal idx)) (numConnecting cse)
  | Connecting =>
      mkCSE (numReady cse) (u64.add (numConnecting cse) (updateVal idx))
  | _ => cse
  end.

(** The "Evaluate" part of [RecordTransition]. *)
Definition evaluate (cse : ConnectivityStateEvaluator) : State :=
  if 0 <? numReady cse then Ready
  else if 0 <? numConnecting cse then Connecting
  else TransientFailure.

(** [RecordTransition]: the receiver after the call and the returned state. *)
Definition RecordTransition (cse : ConnectivityStateEvaluator)
    (oldState newState : State) : ConnectivityStateEvaluator * State :=
  let cse' :=
    fold_left (fun c '(idx, state) => update c idx state)
              [(0, oldState); (1, newState)] cse in
  (cse', evaluate cse').

(** How much a call with [oldState], [newState] moves the counter of
    state [s]: minus one for leaving [s], plus one for entering it. *)
Definition delta (s oldState newState : State) : Z :=
  (if decide (newState = s) then 1 else 0)
  - (if decide (oldState = s) then 1 else 0).

(** A sequence of calls on one evaluator; the result is the evaluator after
    the last call together with the value that call returned, if any. *)
Fixpoint record_all (cse : ConnectivityStateEvaluator)
    (calls : list (State * State)) (last : option State)
  : ConnectivityStateEvaluator * option State :=
  match calls with
  | [] => (cse, last)
  | (o, n) :: rest =>
      let '(cse', r) := RecordTransition cse o n in
      record_all cse' rest (Some r)
  end.

(** The counter that tracks state [s]; no counter tracks the other states. *)
Definition counter (s : State) (cse : ConnectivityStateEvaluator) : Z :=
  match s with
  | Ready => numReady cse
  | Connecting => numConnecting cse
  | _ => 0
  end.

(** A state that takes part in the counters. *)
Definition counted (s : State) : bool :=
  match s with
  | Ready | Connecting => true
  | _ => false
  end.

(** A call whose two states are both [Idle] or [Shutdown]. *)
Definition idle_or_shutdown (c : State * State) : bool :=
  match c with
  | (Idle, Idle) | (Idle, Shutdown) | (Shutdown, Idle) | (Shutdown, Shutdown) =>
      true
  | _ => false
  end.

(** The evaluator after a sequence of calls. *)
Definition after (cse : ConnectivityStateEvaluator)
    (calls : list (State * State)) : ConnectivityStateEvaluator :=
  fst (record_all cse calls None).

(** "Leaving [s] with the counter of [s] at zero underflows the counter to
    [2^64 - 1] and returns [s]", for one call. *)
Definition underflow_returns_old (cse : ConnectivityStateEvaluator)
    (s newState : State) : Prop :=
  counted s = true -> counter s cse = 0 ->
  counter s (fst (RecordTransition cse s newState)) = u64.modulus - 1
  /\ snd (RecordTransition cse s newState) = s.

End evaluator.

(** ** SubConn state histories *)

Module subconn.

Import connectivity.

(** Modelled from the spec: the SubConn state machine of section 4.3 (the
    connection engine that drives it is not part of the sources).
    [Idle -> Connecting -> {Ready, TransientFailure}],
    [TransientFailure -> Connecting], [Ready -> {Idle, Connecting,
    TransientFailure}], and any live state [-> Shutdown], which is terminal. *)
Definition edge (o n : State) : bool :=
  match o, n with
  | Shutdown, _ => false
  | _, Shutdown => true
  | Idle, Connecting => true
  | Connecting, Ready => true
  | Connecting, TransientFailure => true
  | TransientFailure, Connecting => true
  | Ready, Idle => true
  | Ready, Connecting => true
  | Ready, TransientFailure => true
  | _, _ => false
  end.

(** One observed transition of the SubConn with handle [sc]. *)
Record Transition : Set := mkTransition {
  sc : nat;
  oldState : State;
  newState : State
}.

(** The state of a SubConn: the last state recorded for it, [Idle] while no
    transition of it has been seen ("all SubConns start in IDLE"). *)
Definition current (m : gmap nat State) (s : nat) : State :=
  default Idle (m !! s).

(** The states of the tracked SubConns after a history, from states [m]. *)
Fixpoint states_after (m : gmap nat State) (h : list Transition)
  : gmap nat State :=
  match h with
  | [] => m
  | t :: h' => states_after (<[sc t := newState t]> m) h'
  end.

(** [follows m h]: every transition of [h] leaves the state its SubConn is
    in at that point; no condition on which transitions are taken. *)
Fixpoint follows (m : gmap nat State) (h : list Transition) : bool :=
  match h with
  | [] => true
  | t :: h' =>
      bool_decide (current m (sc t) = oldState t)
      && follows (<[sc t := newState t]> m) h'
  end.

(** A valid state history: each SubConn's transitions chain up from [Idle]
    and each of them is an edge of the state machine. *)
Definition valid_history (h : list Transition) : bool :=
  follows ∅ h && forallb (fun t => edge (oldState t) (newState t)) h.

(** The calls the balancer makes for a history: one per transition. *)
Definition calls (h : list Transition) : list (State * State) :=
  map (fun t => (oldState t, newState t)) h.

(** Number of tracked SubConns in state [s]. *)
Definition count (s : State) (m : gmap nat State) : nat :=
  size (filter (fun kv => kv.2 = s) m).

(** Some SubConn is in state [s]. *)
Definition some_in (s : State) (m : gmap nat State) : Prop :=
  exists k, current m k = s.

(** The evaluator's counters are the numbers of [Ready] and of [Connecting]
    SubConns of [m]. *)
Definition tracks (m : gmap nat State)
    (cse : evaluator.ConnectivityStateEvaluator) : Prop :=
  evaluator.numReady cse = Z.of_nat (count Ready m)
  /\ evaluator.numConnecting cse = Z.of_nat (count Connecting m).

(** Two SubConns start connecting, the first becomes ready and then fails. *)
Definition example_history : list Transition :=
  [ mkTransition 1 Idle Connecting;
    mkTransition 2 Idle Connecting;
    mkTransition 1 Connecting Ready;
    mkTransition 1 Ready TransientFailure ].

End subconn.

(** ** Package strings (Go standard library) *)

Module gostrings.

(** ['A' <= c && c <= 'Z'] *)
Definition is_upper (c : ascii) : bool :=
  let n := N_of_ascii c in ((65 <=? n) && (n <=? 90))%N.

(** [c += 'a' - 'A'] for an upper-case ASCII letter, [c] otherwise. *)
Definition lower_byte (c : ascii) : ascii :=
  if is_upper c then ascii_of_N (N_of_ascii c + 32) else c.

(** [strings.ToLower] on ASCII strings: the byte-wise path the library
    takes when no byte is [>= utf8.RuneSelf].  For a name with a byte
    outside ASCII the library maps Unicode runes instead; such names are
    outside this development and bytes [>= 128] are left as they are. *)
Fixpoint ToLower (s : string) : string :=
  match s with
  | EmptyString => EmptyString
  | String c s' => String (lower_byte c) (ToLower s')
  end.

(** Two bytes that are the same character up to ASCII letter case. *)
Definition same_letter (c d : ascii) : bool :=
  bool_decide (c = d)
  || (is_upper c && bool_decide (d = ascii_of_N (N_of_ascii c + 32)))
  || (is_upper d && bool_decide (c = ascii_of_N (N_of_ascii d + 32))).

(** [case_variant s t]: [t] is [s] with the case of some letters changed. *)
Fixpoint case_variant (s t : string) : bool :=
  match s, t with
  | EmptyString, EmptyString => true
  | String c s', String d t' => same_letter c d && case_variant s' t'
  | _, _ => false
  end.

End gostrings.

(** ** Package balancer: the builder registry *)

Module balancer.

Section Registry.

(** [serviceconfig.LoadBalancingConfig] values and the errors of external
    code (policy parsers, [encoding/json]) are opaque here. *)
Variables LoadBalancingConfig Err : Type.

(** A [balancer.Builder]: its [Name()], and its [ParseConfig] method when
    the dynamic type also implements [ConfigParser].  [ParseConfig] returns
    the Go pair [(cfg, err)]; a [nil] interface value is [None].  [Build]
    plays no part in the registry or in config selection and is left out. *)
Record Builder : Type := mkBuilder {
  Name : string;
  ParseConfig : option (string -> option LoadBalancingConfig * option Err)
}.

(** [m[strings.ToLower(b.Name())] = b] *)
Definition Register (b : Builder) (m : gmap string Builder)
  : gmap string Builder :=
  <[gostrings.ToLower (Name b) := b]> m.

(** [delete(m, name)] *)
Definition unregisterForTesting (name : string) (m : gmap string Builder)
  : gmap string Builder :=
  delete name m.

(** [Get]: the builder stored under the lower-cased name, [None] for nil. *)
Definition Get (m : gmap string Builder) (name : string) : option Builder :=
  match m !! gostrings.ToLower name with
  | Some b => Some b
  | None => None
  end.

End Registry.

Arguments mkBuilder {LoadBalancingConfig Err} _ _.
Arguments Name {LoadBalancingConfig Err} _.
Arguments ParseConfig {LoadBalancingConfig Err} _.
Arguments Register {LoadBalancingConfig Err} _ _.
Arguments unregisterForTesting {LoadBalancingConfig Err} _ _.
Arguments Get {LoadBalancingConfig Err} _ _.

End balancer.

(** ** Package resolver: the builder registry *)

Module resolver.

(** A [resolver.Builder], by its [Scheme()]; [tag] tells apart builders
    that declare the same scheme.  [Build] is left out. *)
Record Builder : Set := mkBuilder {
  Scheme : string;
  tag : nat
}.

(** [m[b.Scheme()] = b] *)
Definition Register (b : Builder) (m : gmap string Builder)
  : gmap string Builder :=
  <[Scheme b := b]> m.

(** [Get]: the builder stored under exactly [scheme], [None] for nil. *)
Definition Get (m : gmap string Builder) (scheme : string) : option Builder :=
  match m !! scheme with
  | Some b => Some b
  | None => None
  end.

(** [delete(m, scheme)] *)
Definition UnregisterForTesting (scheme : string) (m : gmap string Builder)
  : gmap string Builder :=
  delete scheme m.

End resolver.

(** ** Package internal/serviceconfig: BalancerConfig.UnmarshalJSON *)

Module serviceconfig.

Section Selector.

Variables LoadBalancingConfig Err : Type.

(** [type BalancerConfig struct { Name string; Config LoadBalancingConfig }] *)
Record BalancerConfig : Type := mkBalancerConfig {
  Name : string;
  Config : option LoadBalancingConfig
}.

(** The errors [UnmarshalJSON] returns, by the place that builds them. *)
Inductive error : Type :=
  | DecodeError (e : Err)
      (* the error of [json.Unmarshal], returned as it is *)
  | NotOnePair (i : nat) (lbcfg : gmap string string)
      (* "entry %v does not contain exactly 1 policy/config pair: %q" *)
  | PolicyParseError (name : string) (e : Err)
      (* "error parsing loadBalancingConfig for policy %q: %v" *)
  | NoSupportedPolicies.
      (* "no supported policies found" *)

(** What a call leaves behind: the receiver, the warnings logged and the
    returned error ([None] for nil). *)
Record outcome : Type := mkOutcome {
  receiver : BalancerConfig;
  warnings : list string;
  err : option error
}.

(** [for name, jsonCfg = range lbcfg {}]: both variables start at their zero
    value and end at the last pair visited. *)
Definition range_last (lbcfg : gmap string string) : string * string :=
  fold_left (fun _ kv => kv) (map_to_list lbcfg) (EmptyString, EmptyString).

(** The [for i, lbcfg := range ir] loop and the final [return], from entry
    [i] on, with the balancer registry [m] and receiver [bc]. *)
Fixpoint select (m : gmap string (balancer.Builder LoadBalancingConfig Err))
    (bc : BalancerConfig) (i : nat) (ir : list (gmap string string))
  : outcome :=
  match ir with
  | [] => mkOutcome bc [] (Some NoSupportedPolicies)
  | lbcfg :: rest =>
      if negb (size lbcfg =? 1) then
        mkOutcome bc [] (Some (NotOnePair i lbcfg))
      else
        let '(name, jsonCfg) := range_last lbcfg in
        match balancer.Get m name with
        | None => select m bc (S i) rest
        | Some builder =>
            let bc1 := mkBalancerConfig name (Config bc) in
            match balancer.ParseConfig builder with
            | None =>
                mkOutcome bc1
                  (if decide (jsonCfg = "{}") then [] else [jsonCfg]) None
            | Some parse =>
                match parse jsonCfg with
                | (_, Some e) =>
                    mkOutcome bc1 [] (Some (PolicyParseError name e))
                | (cfg, None) =>
                    mkOutcome (mkBalancerConfig (Name bc1) cfg) [] None
                end
            end
        end
  end.

(** [encoding/json]'s decoding of the input into
    [intermediateBalancerConfig], i.e. [[]map[string]json.RawMessage]. *)
Variable json_Unmarshal : string -> Err + list (gmap string string).

(** [func (bc *BalancerConfig) UnmarshalJSON(b []byte) error] *)
Definition UnmarshalJSON
    (m : gmap string (balancer.Builder LoadBalancingConfig Err))
    (bc : BalancerConfig) (b : string) : outcome :=
  match json_Unmarshal b with
  | inl e => mkOutcome bc [] (Some (DecodeError e))
  | inr ir => select m bc 0 ir
  end.

(** An entry the loop passes over: one key, naming no registered policy. *)
Definition skipped (m : gmap string (balancer.Builder LoadBalancingConfig Err))
    (lbcfg : gmap string string) : Prop :=
  exists name jsonCfg,
    lbcfg = {[ name := jsonCfg ]} /\ balancer.Get m name = None.

(** An entry that does not end the loop with a policy: it has not exactly
    one key, or its one key names no registered policy. *)
Definition unselected
    (m : gmap string (balancer.Builder LoadBalancingConfig Err))
    (lbcfg : gmap string string) : Prop :=
  size lbcfg <> 1 \/ skipped m lbcfg.

End Selector.

Arguments mkBalancerConfig {LoadBalancingConfig} _ _.
Arguments Name {LoadBalancingConfig} _.
Arguments Config {LoadBalancingConfig} _.
Arguments DecodeError {Err} _.
Arguments NotOnePair {Err} _ _.
Arguments PolicyParseError {Err} _ _.
Arguments NoSupportedPolicies {Err}.
Arguments mkOutcome {LoadBalancingConfig Err} _ _ _.
Arguments receiver {LoadBalancingConfig Err} _.
Arguments warnings {LoadBalancingConfig Err} _.
Arguments err {LoadBalancingConfig Err} _.
Arguments select {LoadBalancingConfig Err} _ _ _ _.
Arguments UnmarshalJSON {LoadBalancingConfig Err} _ _ _ _.
Arguments skipped {LoadBalancingConfig Err} _ _.
Arguments unselected {LoadBalancingConfig Err} _ _.

End serviceconfig.

(** ** Sample policies and inputs *)

Module examples.

Import serviceconfig.

Definition quote : string := String (ascii_of_nat 34) EmptyString.

(** [s] between double quotes, as a JSON string is written. *)
Definition quoted (s : string) : string := quote +:+ s +:+ quote.

(** A policy whose parser accepts every raw config (parsed form: its
    length). *)
Definition known_policy : balancer.Builder nat string :=
  balancer.mkBuilder "known_policy"
    (Some (fun raw => (Some (String.length raw), None))).

(** A policy whose parser rejects every raw config but the empty object. *)
Definition strict_policy : balancer.Builder nat string :=
  balancer.mkBuilder "strict_policy"
    (Some (fun raw => if decide (raw = "{}") then (Some 0, None)
                      else (None, Some "unexpected field"))).

(** The registry after the two policies registered themselves. *)
Definition registry : gmap string (balancer.Builder nat string) :=
  balancer.Register strict_policy (balancer.Register known_policy ∅).

(** The zero value of [BalancerConfig]. *)
Definition zero : BalancerConfig nat := mkBalancerConfig EmptyString None.

(** The raw config [{"x":1}]. *)
Definition x1 : string := "{" +:+ quoted "x" +:+ ":1}".

(** An entry [{"name":raw}] as it is written. *)
Definition pair_text (name raw : string) : string := quoted name +:+ ":" +:+ raw.

(** [[{"unknown_policy":{}}, {"known_policy":{"x":1}}]] *)
Definition wire_fallback : string :=
  "[{" +:+ pair_text "unknown_policy" "{}" +:+ "}, {"
  +:+ pair_text "known_policy" x1 +:+ "}]".

Definition ir_fallback : list (gmap string string) :=
  [ {[ "unknown_policy" := "{}" ]}; {[ "known_policy" := x1 ]} ].

(** [[{"a":{}, "b":{}}]] *)
Definition wire_two_keys : string :=
  "[{" +:+ pair_text "a" "{}" +:+ ", " +:+ pair_text "b" "{}" +:+ "}]".

Definition ir_two_keys : list (gmap string string) :=
  [ {[ "a" := "{}"; "b" := "{}" ]} ].

(** [[{"known_policy":{}}, {"a":{}, "b":{}}]] *)
Definition wire_late_two_keys : string :=
  "[{" +:+ pair_text "known_policy" "{}" +:+ "}, {"
  +:+ pair_text "a" "{}" +:+ ", " +:+ pair_text "b" "{}" +:+ "}]".

Definition ir_late_two_keys : list (gmap string string) :=
  [ {[ "known_policy" := "{}" ]}; {[ "a" := "{}"; "b" := "{}" ]} ].

(** [[{"unknown_policy":{}}, {"strict_policy":{"x":1}}, {"known_policy":{}}]] *)
Definition wire_strict : string :=
  "[{" +:+ pair_text "unknown_policy" "{}" +:+ "}, {"
  +:+ pair_text "strict_policy" x1 +:+ "}, {"
  +:+ pair_text "known_policy" "{}" +:+ "}]".

Definition ir_strict : list (gmap string string) :=
  [ {[ "unknown_policy" := "{}" ]}; {[ "strict_policy" := x1 ]};
    {[ "known_policy" := "{}" ]} ].

(** [[{"unknown_policy":{}}]] *)
Definition wire_unknown : string :=
  "[{" +:+ pair_text "unknown_policy" "{}" +:+ "}]".

Definition ir_unknown : list (gmap string string) :=
  [ {[ "unknown_policy" := "{}" ]} ].

(** What [json.Unmarshal] gives on the inputs above; other inputs are not
    used and are reported as errors. *)
Definition json_Unmarshal (b : string) : string + list (gmap string string) :=
  if decide (b = wire_fallback) then inr ir_fallback
  else if decide (b = wire_two_keys) then inr ir_two_keys
  else if decide (b = wire_late_two_keys) then inr ir_late_two_keys
  else if decide (b = wire_strict) then inr ir_strict
  else if decide (b = wire_unknown) then inr ir_unknown
  else inl "input outside the sample table".

End examples.

(** ** Sequences of calls on the evaluator and on the registries *)

Module callseq.

Import connectivity.

(** Net change of the counter of [s] over a list of [RecordTransition]
    calls, before wrap-around. *)
Definition net (s : State) (calls : list (State * State)) : Z :=
  fold_right (fun c acc => (evaluator.delta s c.1 c.2 + acc)%Z) 0%Z calls.

Section Balancer.

Variables LoadBalancingConfig Err : Type.

(** A call that writes the balancer registry. *)
Inductive call : Type :=
  | CallRegister (b : balancer.Builder LoadBalancingConfig Err)
  | CallUnregister (name : string).

Definition apply (m : gmap string (balancer.Builder LoadBalancingConfig Err))
    (c : call) : gmap string (balancer.Builder LoadBalancingConfig Err) :=
  match c with
  | CallRegister b => balancer.Register b m
  | CallUnregister name => balancer.unregisterForTesting name m
  end.

(** The registry after the calls [cs], in order, from [m]. *)
Definition run (cs : list call)
    (m : gmap string (balancer.Builder LoadBalancingConfig Err))
  : gmap string (balancer.Builder LoadBalancingConfig Err) :=
  fold_left apply cs m.

(** Every key is the lower-cased name of the builder stored under it. *)
Definition keyed_by_lower_name
    (m : gmap string (balancer.Builder LoadBalancingConfig Err)) : Prop :=
  forall (k : string) (b : balancer.Builder LoadBalancingConfig Err),
    m !! k = Some b -> k = gostrings.ToLower (balancer.Name b).

End Balancer.

Arguments CallRegister {LoadBalancingConfig Err} _.
Arguments CallUnregister {LoadBalancingConfig Err} _.
Arguments apply {LoadBalancingConfig Err} _ _.
Arguments run {LoadBalancingConfig Err} _ _.
Arguments keyed_by_lower_name {LoadBalancingConfig Err} _.

End callseq.

(** ** Package resolver: the package-level variables *)

Module resolver_pkg.

(** [var ( m = make(map[string]Builder); defaultScheme = "passthrough" )] *)
Record vars : Set := mkVars {
  m : gmap string resolver.Builder;
  defaultScheme : string
}.

(** The variables as the package initialises them. *)
Definition initial : vars := mkVars ∅ "passthrough".

Definition Register (b : resolver.Builder) (v : vars) : vars :=
  mkVars (resolver.Register b (m v)) (defaultScheme v).

Definition Get (v : vars) (scheme : string) : option resolver.Builder :=
  resolver.Get (m v) scheme.

(** [defaultScheme = scheme] *)
Definition SetDefaultScheme (scheme : string) (v : vars) : vars :=
  mkVars (m v) scheme.

(** [return defaultScheme] *)
Definition GetDefaultScheme (v : vars) : string := defaultScheme v.

Definition UnregisterForTesting (scheme : string) (v : vars) : vars :=
  mkVars (resolver.UnregisterForTesting scheme (m v)) (defaultScheme v).

(** A call that writes the package variables. *)
Inductive call : Set :=
  | CallRegister (b : resolver.Builder)
  | CallUnregister (scheme : string)
  | CallSetDefault (scheme : string).

Definition apply (v : vars) (c : call) : vars :=
  match c with
  | CallRegister b => Register b v
  | CallUnregister scheme => UnregisterForTesting scheme v
  | CallSetDefault scheme => SetDefaultScheme scheme v
  end.

Definition run (cs : list call) (v : vars) : vars := fold_left apply cs v.

(** The call is not a [SetDefaultScheme]. *)
Definition keeps_default (c : call) : bool :=
  match c with
  | CallSetDefault _ => false
  | _ => true
  end.

(** Every key is the scheme of the builder stored under it. *)
Definition keyed_by_scheme (v : vars) : Prop :=
  forall (s : string) (b : resolver.Builder),
    m v !! s = Some b -> s = resolver.Scheme b.

End resolver_pkg.

(** ** More sample inputs *)

Module samples.

Import examples.

(** A policy that does not implement [ConfigParser]. *)
Definition pick_first : balancer.Builder nat string :=
  balancer.mkBuilder "pick_first" None.

(** [[{"Pick_First":{"x":1}}]] *)
Definition wire_pick_first : string :=
  "[{" +:+ pair_text "Pick_First" x1 +:+ "}]".

Definition ir_pick_first : list (gmap string string) :=
  [ {[ "Pick_First" := x1 ]} ].

(** [[{"unknown_policy":{}}, {}, {"known_policy":{}}]] *)
Definition wire_empty_entry : string :=
  "[{" +:+ pair_text "unknown_policy" "{}" +:+ "}, {}, {"
  +:+ pair_text "known_policy" "{}" +:+ "}]".

Definition ir_empty_entry : list (gmap string string) :=
  [ {[ "unknown_policy" := "{}" ]}; ∅; {[ "known_policy" := "{}" ]} ].

(** What [json.Unmarshal] gives on the two inputs above and on those of
    [examples]. *)
Definition json_Unmarshal (b : string) : string + list (gmap string string) :=
  if decide (b = wire_pick_first) then inr ir_pick_first
  else if decide (b = wire_empty_entry) then inr ir_empty_entry
  else examples.json_Unmarshal b.

End samples.

(** * Properties *)

(** ** ConnectivityStateEvaluator.RecordTransition *)

Module EvaluatorFacts.

Import connectivity evaluator.
Local Open Scope Z_scope.

Lemma updateVal_old : updateVal 0 = u64.modulus - 1.
Proof. reflexivity. Qed.

Lemma updateVal_new : updateVal 1 = 1.
Proof. reflexivity. Qed.

Lemma modulus_val : u64.modulus = 18446744073709551616.
Proof. reflexivity. Qed.

(** Adding all-ones is subtracting one. *)
Lemma add_all_ones (a : Z) : u64.add a (u64.modulus - 1) = u64.wrap (a - 1).
Proof.
  unfold u64.add, u64.wrap.
  replace (a + (u64.modulus - 1)) with (a - 1 + 1 * u64.modulus) by ring.
  apply Z.mod_add. rewrite modulus_val. lia.
Qed.

Lemma wrap_wrap_add (a b : Z) : u64.wrap (u64.wrap a + b) = u64.wrap (a + b).
Proof. unfold u64.wrap. apply Zplus_mod_idemp_l. Qed.

Lemma wrap_small (a : Z) : u64.in_range a -> u64.wrap a = a.
Proof. intros H. unfold u64.wrap. apply Z.mod_small. exact H. Qed.

Lemma wrap_in_range (a : Z) : u64.in_range (u64.wrap a).
Proof.
  unfold u64.in_range, u64.wrap. apply Z.mod_pos_bound.
  rewrite modulus_val. lia.
Qed.

(** The counters after one call, as one wrapped sum each. *)
Lemma RecordTransition_fst (cse : ConnectivityStateEvaluator) (o n : State) :
  wf cse ->
  fst (RecordTransition cse o n)
  = mkCSE (u64.wrap (numReady cse + delta Ready o n))
          (u64.wrap (numConnecting cse + delta Connecting o n)).
Proof.
  intros [Hr Hc]. unfold RecordTransition. cbn [fst fold_left].
  destruct cse as [r c]; cbn [numReady numConnecting] in *.
  destruct o, n; unfold update, delta; cbn [numReady numConnecting];
    repeat (destruct (decide _) as [?|?]; try congruence);
    rewrite ?updateVal_old, ?updateVal_new, ?add_all_ones;
    unfold u64.add; rewrite ?wrap_wrap_add;
    f_equal;
    rewrite ?Z.add_0_r, ?Z.sub_0_r, ?Z.add_simpl_r;
    try (symmetry; apply wrap_small; assumption);
    try (f_equal; ring).
Qed.

Lemma RecordTransition_snd (cse : ConnectivityStateEvaluator) (o n : State) :
  snd (RecordTransition cse o n) = evaluate (fst (RecordTransition cse o n)).
Proof. reflexivity. Qed.

Lemma RecordTransition_wf (cse : ConnectivityStateEvaluator) (o n : State) :
  wf cse -> wf (fst (RecordTransition cse o n)).
Proof.
  intros H. rewrite RecordTransition_fst by exact H.
  split; apply wrap_in_range.
Qed.

(** States that are neither [Ready] nor [Connecting] leave the receiver as
    it is. *)
Lemma RecordTransition_uncounted (cse : ConnectivityStateEvaluator)
    (o n : State) :
  o <> Ready -> o <> Connecting -> n <> Ready -> n <> Connecting ->
  RecordTransition cse o n = (cse, evaluate cse).
Proof. intros; destruct o, n; try congruence; reflexivity. Qed.

(** Calls that only mention [Idle] and [Shutdown] never move the counters. *)
Lemma record_all_idle_or_shutdown (cse : ConnectivityStateEvaluator)
    (calls : list (State * State)) (last : option State) :
  forallb idle_or_shutdown calls = true ->
  record_all cse calls last
  = (cse, match calls with [] => last | _ => Some (evaluate cse) end).
Proof.
  revert last. induction calls as [|[o n] rest IH]; intros last H.
  - reflexivity.
  - cbn [forallb] in H. apply andb_prop in H as [Hc Hrest].
    cbn [record_all].
    rewrite RecordTransition_uncounted
      by (destruct o, n; cbn in Hc; congruence).
    rewrite IH by exact Hrest. destruct rest; reflexivity.
Qed.

(** C5. One call [RecordTransition(oldState, newState)] subtracts one from
    the counter of [oldState] and adds one to the counter of [newState],
    in [uint64] arithmetic, where only [Ready] and [Connecting] have a
    counter; [Idle], [Shutdown] and [TransientFailure] move neither.  The
    returned aggregate is [Ready] if [numReady > 0] after the update, else
    [Connecting] if [numConnecting > 0], else [TransientFailure].  A fresh
    evaluator that has only recorded transitions among [Idle] and
    [Shutdown] returns [TransientFailure]. *)
Theorem RecordTransition_single_call (cse : ConnectivityStateEvaluator)
    (o n : State) :
  wf cse ->
  let cse' := fst (RecordTransition cse o n) in
  let r := snd (RecordTransition cse o n) in
  numReady cse' = u64.wrap (numReady cse + delta Ready o n)
  /\ numConnecting cse'
     = u64.wrap (numConnecting cse + delta Connecting o n)
  /\ (o <> Ready -> n <> Ready -> numReady cse' = numReady cse)
  /\ (o <> Connecting -> n <> Connecting ->
      numConnecting cse' = numConnecting cse)
  /\ r = (if 0 <? numReady cse' then Ready
          else if 0 <? numConnecting cse' then Connecting
          else TransientFailure)
  /\ (forall calls : list (State * State),
        calls <> [] -> forallb idle_or_shutdown calls = true ->
        record_all fresh calls None = (fresh, Some TransientFailure)).
Proof.
  intros Hwf cse' r. subst cse' r.
  rewrite RecordTransition_snd, RecordTransition_fst by exact Hwf.
  cbn [numReady numConnecting].
  destruct Hwf as [Hr Hc].
  repeat split.
  - intros Ho Hn. unfold delta.
    rewrite !decide_False by congruence.
    rewrite Z.sub_0_r, Z.add_0_r. apply wrap_small, Hr.
  - intros Ho Hn. unfold delta.
    rewrite !decide_False by congruence.
    rewrite Z.sub_0_r, Z.add_0_r. apply wrap_small, Hc.
  - intros calls Hne Hall.
    rewrite record_all_idle_or_shutdown by exact Hall.
    destruct calls; [congruence | reflexivity].
Qed.

Lemma RecordTransition_single_call_witness :
  wf (mkCSE 1 0)
  /\ numReady (fst (RecordTransition (mkCSE 1 0) Ready Idle))
     = u64.wrap (1 + delta Ready Ready Idle).
Proof.
  assert (H : wf (mkCSE 1 0)).
  { unfold wf, u64.in_range. cbn. rewrite modulus_val. lia. }
  split; [exact H |].
  exact (proj1 (RecordTransition_single_call (mkCSE 1 0) Ready Idle H)).
Defined.

(** C8 (as amended). The counters are [uint64] and wrap: a call
    [RecordTransition(s, newState)] with [newState <> s], where [s] is
    [Ready] or [Connecting] and the counter of [s] is [0], leaves that
    counter at [2^64 - 1].  The call then returns [Ready] when [s] is
    [Ready]; when [s] is [Connecting] it returns [Connecting] if
    [numReady] is [0] after the call and [Ready] if it is positive.  The
    first call [RecordTransition(Ready, Idle)] on a fresh evaluator leaves
    [numReady = 2^64 - 1] and returns [Ready]. *)
Theorem RecordTransition_underflow (cse : ConnectivityStateEvaluator)
    (s n : State) :
  counted s = true -> counter s cse = 0 -> n <> s ->
  let cse' := fst (RecordTransition cse s n) in
  let r := snd (RecordTransition cse s n) in
  counter s cse' = 2 ^ 64 - 1
  /\ (s = Ready -> r = Ready)
  /\ (s = Connecting -> numReady cse' = 0 -> r = Connecting)
  /\ (s = Connecting -> 0 < numReady cse' -> r = Ready)
  /\ RecordTransition fresh Ready Idle = (mkCSE (2 ^ 64 - 1) 0, Ready).
Proof.
  intros Hs H0 Hn cse' r. subst cse' r.
  destruct cse as [nr nc].
  destruct s; cbn in Hs; try discriminate; cbn [counter numReady numConnecting] in H0;
    subst; destruct n; try congruence;
    unfold RecordTransition; cbn [fst snd fold_left update counter
                                  numReady numConnecting];
    rewrite ?updateVal_old, ?updateVal_new;
    (repeat split; try reflexivity; try discriminate; intros _ H;
     unfold evaluate; cbn [numReady numConnecting] in *;
     try (rewrite H; reflexivity);
     try (apply Z.ltb_lt in H; rewrite H; reflexivity)).
Qed.

Lemma RecordTransition_underflow_witness :
  counter Ready (fst (RecordTransition fresh Ready Idle)) = 2 ^ 64 - 1.
Proof.
  refine (proj1 (RecordTransition_underflow fresh Ready Idle _ _ _));
    [reflexivity | reflexivity | discriminate].
Defined.

(** C8 as stated fails when the new state is the old one, and when a
    SubConn counted as leaving [Connecting] becomes [Ready]. *)
Lemma underflow_returns_old_counterexample :
  ~ underflow_returns_old fresh Ready Ready
  /\ ~ underflow_returns_old fresh Connecting Ready.
Proof.
  split; intros H; destruct (H eq_refl eq_refl) as [H1 H2]; vm_compute in H2; discriminate.
Qed.

End EvaluatorFacts.

(** ** The aggregate over a history of SubConn transitions *)

Module HistoryFacts.

Import connectivity evaluator subconn EvaluatorFacts.
Local Open Scope Z_scope.

Lemma filter_lookup_state (s : State) (m : gmap nat State) (k : nat) :
  s <> Idle ->
  filter (fun kv : nat * State => kv.2 = s) m !! k
  = if decide (current m k = s) then Some s else None.
Proof.
  intros Hs. unfold current. destruct (m !! k) as [x|] eqn:Hk;
    cbn [default from_option id].
  - destruct (decide (x = s)) as [->|Hne].
    + apply map_lookup_filter_Some. split; [exact Hk | reflexivity].
    + apply map_lookup_filter_None. right. intros y Hy. cbn.
      rewrite Hk in Hy. congruence.
  - rewrite decide_False by congruence.
    apply map_lookup_filter_None. left. exact Hk.
Qed.

(** Recording that SubConn [k] moves to [v] changes the number of SubConns
    in a counted state [s] by [delta s]. *)
Lemma count_insert (s : State) (m : gmap nat State) (k : nat) (v : State) :
  s <> Idle ->
  Z.of_nat (count s (<[k := v]> m))
  = Z.of_nat (count s m) + delta s (current m k) v.
Proof.
  intros Hs. unfold count, delta.
  rewrite map_filter_insert. cbn [snd].
  pose proof (filter_lookup_state s m k Hs) as Hl.
  destruct (decide (v = s)) as [Hv|Hv].
  - rewrite map_size_insert, Hl.
    destruct (decide (current m k = s)); cbn; lia.
  - rewrite map_filter_delete, map_size_delete, Hl.
    destruct (decide (current m k = s)) as [Hc|Hc]; cbn; [|lia].
    assert (size (filter (fun kv : nat * State => kv.2 = s) m) <> 0%nat).
    { apply map_size_ne_0_lookup. exists k. rewrite Hl. eauto. }
    lia.
Qed.

Lemma count_le_size (s : State) (m : gmap nat State) :
  (count s m <= size m)%nat.
Proof. apply map_subseteq_size, map_filter_subseteq. Qed.

Lemma size_insert_mono (m : gmap nat State) (k : nat) (v : State) :
  (size m <= size (<[k := v]> m))%nat.
Proof. rewrite map_size_insert. destruct (m !! k); cbn; lia. Qed.

Lemma size_states_after_mono (h : list Transition) (m : gmap nat State) :
  (size m <= size (states_after m h))%nat.
Proof.
  revert m. induction h as [|t h IH]; intros m; cbn [states_after].
  - lia.
  - etransitivity; [apply (size_insert_mono m (sc t) (newState t)) | apply IH].
Qed.

Lemma tracks_wf (m : gmap nat State) (cse : ConnectivityStateEvaluator) :
  tracks m cse -> Z.of_nat (size m) < u64.modulus -> wf cse.
Proof.
  intros [Hr Hc] Hlt. unfold wf, u64.in_range. rewrite Hr, Hc.
  pose proof (count_le_size Ready m). pose proof (count_le_size Connecting m).
  lia.
Qed.

(** One recorded transition keeps the counters exact, as long as the
    tracked SubConns are fewer than [2^64]. *)
Lemma tracks_step (m : gmap nat State) (cse : ConnectivityStateEvaluator)
    (k : nat) (v : State) :
  tracks m cse ->
  Z.of_nat (size (<[k := v]> m)) < u64.modulus ->
  tracks (<[k := v]> m) (fst (RecordTransition cse (current m k) v)).
Proof.
  intros Ht Hlt.
  assert (Hwf : wf cse).
  { apply (tracks_wf m); [exact Ht |].
    pose proof (size_insert_mono m k v). lia. }
  rewrite RecordTransition_fst by exact Hwf.
  destruct Ht as [Hr Hc]. unfold tracks. cbn [numReady numConnecting].
  rewrite Hr, Hc, <- !count_insert by discriminate.
  pose proof (count_le_size Ready (<[k := v]> m)).
  pose proof (count_le_size Connecting (<[k := v]> m)).
  split; apply wrap_small; unfold u64.in_range; lia.
Qed.

Lemma count_pos (s : State) (m : gmap nat State) :
  s <> Idle -> (0 < Z.of_nat (count s m) <-> some_in s m).
Proof.
  intros Hs. unfold some_in, count. split.
  - intros H.
    assert (Hne : size (filter (fun kv : nat * State => kv.2 = s) m) <> 0%nat)
      by lia.
    apply map_size_ne_0_lookup in Hne as [k [x Hk]].
    exists k. rewrite filter_lookup_state in Hk by exact Hs.
    destruct (decide (current m k = s)); [assumption | discriminate].
  - intros [k Hk].
    assert (size (filter (fun kv : nat * State => kv.2 = s) m) <> 0%nat);
      [| lia].
    apply map_size_ne_0_lookup. exists k.
    rewrite filter_lookup_state by exact Hs.
    rewrite decide_True by exact Hk. eauto.
Qed.

(** With exact counters, [evaluate] reads off the SubConn states. *)
Lemma evaluate_tracks (m : gmap nat State) (cse : ConnectivityStateEvaluator) :
  tracks m cse ->
  (evaluate cse = Ready <-> some_in Ready m)
  /\ (evaluate cse = Connecting <->
      ~ some_in Ready m /\ some_in Connecting m)
  /\ (evaluate cse = TransientFailure <->
      ~ some_in Ready m /\ ~ some_in Connecting m).
Proof.
  intros [Hr Hc]. unfold evaluate. rewrite Hr, Hc.
  pose proof (count_pos Ready m ltac:(discriminate)) as HR.
  pose proof (count_pos Connecting m ltac:(discriminate)) as HC.
  destruct (Z.ltb_spec 0 (Z.of_nat (count Ready m))) as [H1|H1];
    [| destruct (Z.ltb_spec 0 (Z.of_nat (count Connecting m))) as [H2|H2]];
    (split; [| split]); split; intros H;
    try discriminate; try reflexivity;
    intuition (try discriminate; try lia).
Qed.

(** The counters stay exact along a history whose transitions chain up. *)
Lemma record_all_tracks (h : list Transition) :
  forall (m : gmap nat State) (cse : ConnectivityStateEvaluator)
         (last : option State),
  follows m h = true ->
  tracks m cse ->
  Z.of_nat (size (states_after m h)) < u64.modulus ->
  tracks (states_after m h) (fst (record_all cse (calls h) last))
  /\ snd (record_all cse (calls h) last)
     = match h with
       | [] => last
       | _ => Some (evaluate (fst (record_all cse (calls h) last)))
       end.
Proof.
  induction h as [|t h IH]; intros m cse last Hf Ht Hlt.
  - cbn. split; [exact Ht | reflexivity].
  - cbn [follows] in Hf. apply andb_prop in Hf as [Hcur Hf].
    apply bool_decide_eq_true in Hcur.
    cbn [states_after] in Hlt |- *. cbn [calls map record_all].
    fold (calls h).
    destruct (RecordTransition cse (oldState t) (newState t)) as [cse' r] eqn:E.
    assert (Ht' : tracks (<[sc t := newState t]> m) cse').
    { replace cse' with (fst (RecordTransition cse (oldState t) (newState t)))
        by (rewrite E; reflexivity).
      rewrite <- Hcur. apply tracks_step; [exact Ht |].
      pose proof (size_states_after_mono h (<[sc t := newState t]> m)). lia. }
    destruct (IH _ cse' (Some r) Hf Ht' Hlt) as [IH1 IH2].
    split; [exact IH1 |].
    rewrite IH2. destruct h as [|t' h']; [| reflexivity].
    cbn. f_equal.
    replace r with (snd (RecordTransition cse (oldState t) (newState t)))
      by (rewrite E; reflexivity).
    rewrite RecordTransition_snd, E. reflexivity.
Qed.

Lemma tracks_fresh : tracks ∅ fresh.
Proof. split; reflexivity. Qed.

(** C4. For a valid state history (every SubConn's transitions form a path
    through the SubConn state machine from [Idle], each recorded by one
    call) over fewer than [2^64] SubConns, the value the last
    [RecordTransition] returns is [Ready] iff some tracked SubConn is
    currently [Ready]; else [Connecting] iff some SubConn is currently
    [Connecting]; else [TransientFailure]. *)
Theorem aggregate_of_valid_history (h : list Transition) :
  valid_history h = true ->
  h <> [] ->
  Z.of_nat (size (states_after ∅ h)) < 2 ^ 64 ->
  exists r : State,
    snd (record_all fresh (calls h) None) = Some r
    /\ (r = Ready <-> some_in Ready (states_after ∅ h))
    /\ (r = Connecting <->
        ~ some_in Ready (states_after ∅ h)
        /\ some_in Connecting (states_after ∅ h))
    /\ (r = TransientFailure <->
        ~ some_in Ready (states_after ∅ h)
        /\ ~ some_in Connecting (states_after ∅ h)).
Proof.
  intros Hv Hne Hlt. unfold valid_history in Hv.
  apply andb_prop in Hv as [Hf _].
  destruct (record_all_tracks h ∅ fresh None Hf tracks_fresh Hlt) as [Ht Hr].
  exists (evaluate (fst (record_all fresh (calls h) None))).
  split.
  - rewrite Hr. destruct h; [congruence | reflexivity].
  - apply evaluate_tracks, Ht.
Qed.

Lemma aggregate_of_valid_history_witness :
  exists r : State,
    snd (record_all fresh (calls example_history) None) = Some r
    /\ (r = Ready <-> some_in Ready (states_after ∅ example_history))
    /\ (r = Connecting <->
        ~ some_in Ready (states_after ∅ example_history)
        /\ some_in Connecting (states_after ∅ example_history))
    /\ (r = TransientFailure <->
        ~ some_in Ready (states_after ∅ example_history)
        /\ ~ some_in Connecting (states_after ∅ example_history)).
Proof.
  apply (aggregate_of_valid_history example_history);
    [reflexivity | discriminate | vm_compute; reflexivity].
Defined.

(** The example of the specification: two SubConns start connecting and the
    first becomes [Ready], the aggregate is [Ready]; the first then fails,
    the aggregate is [Connecting]. *)
Example example_history_aggregate :
  snd (record_all fresh (calls (firstn 3 example_history)) None) = Some Ready
  /\ snd (record_all fresh (calls example_history) None) = Some Connecting.
Proof. split; reflexivity. Qed.

End HistoryFacts.

(** ** The builder registries *)

Module RegistryFacts.

Import gostrings.

Lemma N_of_lowered (c : ascii) :
  is_upper c = true ->
  N_of_ascii (ascii_of_N (N_of_ascii c + 32)) = (N_of_ascii c + 32)%N.
Proof.
  unfold is_upper. cbv zeta. intros H.
  apply andb_prop in H as [_ H]. apply N.leb_le in H.
  apply N_ascii_embedding. lia.
Qed.

(** The lowered form of an upper-case letter is not upper-case. *)
Lemma is_upper_lowered (c : ascii) :
  is_upper c = true -> is_upper (ascii_of_N (N_of_ascii c + 32)) = false.
Proof.
  intros H. unfold is_upper at 1. cbv zeta. rewrite N_of_lowered by exact H.
  unfold is_upper in H. cbv zeta in H.
  apply andb_prop in H as [H _]. apply N.leb_le in H.
  apply andb_false_intro2. apply N.leb_gt. lia.
Qed.

Lemma lower_byte_upper (c : ascii) :
  is_upper c = true -> lower_byte c = ascii_of_N (N_of_ascii c + 32).
Proof. intros H. unfold lower_byte. rewrite H. reflexivity. Qed.

Lemma lower_byte_not_upper (c : ascii) :
  is_upper c = false -> lower_byte c = c.
Proof. intros H. unfold lower_byte. rewrite H. reflexivity. Qed.

Lemma lower_byte_same_letter (c d : ascii) :
  same_letter c d = true <-> lower_byte c = lower_byte d.
Proof.
  unfold same_letter. split.
  - intros H. apply orb_prop in H as [H|H]; [apply orb_prop in H as [H|H] |].
    + apply bool_decide_eq_true in H. congruence.
    + apply andb_prop in H as [Hu H]. apply bool_decide_eq_true in H.
      rewrite (lower_byte_upper c Hu), H.
      symmetry. apply lower_byte_not_upper, is_upper_lowered, Hu.
    + apply andb_prop in H as [Hu H]. apply bool_decide_eq_true in H.
      rewrite (lower_byte_upper d Hu), H.
      apply lower_byte_not_upper, is_upper_lowered, Hu.
  - intros H.
    destruct (is_upper c) eqn:Hc, (is_upper d) eqn:Hd.
    + rewrite (lower_byte_upper c Hc), (lower_byte_upper d Hd) in H.
      apply (f_equal N_of_ascii) in H.
      rewrite !N_of_lowered in H by assumption.
      assert (Hcd : N_of_ascii c = N_of_ascii d) by lia.
      apply (f_equal ascii_of_N) in Hcd. rewrite !ascii_N_embedding in Hcd.
      subst d. rewrite bool_decide_eq_true_2 by reflexivity. reflexivity.
    + rewrite (lower_byte_upper c Hc), (lower_byte_not_upper d Hd) in H.
      rewrite (bool_decide_eq_true_2 (d = ascii_of_N _)) by (symmetry; exact H).
      destruct (bool_decide (c = d)); reflexivity.
    + rewrite (lower_byte_not_upper c Hc), (lower_byte_upper d Hd) in H.
      rewrite (bool_decide_eq_true_2 (c = ascii_of_N _)) by exact H.
      destruct (bool_decide (c = d)); reflexivity.
    + rewrite (lower_byte_not_upper c Hc), (lower_byte_not_upper d Hd) in H.
      rewrite bool_decide_eq_true_2 by exact H. reflexivity.
Qed.

(** Case variants are exactly the strings with the same lower-cased form. *)
Lemma case_variant_ToLower (s t : string) :
  case_variant s t = true <-> ToLower s = ToLower t.
Proof.
  revert t. induction s as [|c s IH]; intros [|d t]; cbn [case_variant ToLower].
  - split; reflexivity.
  - split; discriminate.
  - split; discriminate.
  - rewrite andb_true_iff, lower_byte_same_letter, IH.
    split; [intros [-> ->]; reflexivity | intros H; injection H; auto].
Qed.

Section Balancer.

Context {LoadBalancingConfig Err : Type}.

Implicit Types b : balancer.Builder LoadBalancingConfig Err.
Implicit Types m : gmap string (balancer.Builder LoadBalancingConfig Err).

Lemma Get_lookup m (q : string) : balancer.Get m q = m !! ToLower q.
Proof. unfold balancer.Get. destruct (m !! ToLower q); reflexivity. Qed.

(** After [Register(b)], every name that lower-cases like [b]'s finds [b]. *)
Lemma Get_Register_same_lower b m (q : string) :
  ToLower q = ToLower (balancer.Name b) ->
  balancer.Get (balancer.Register b m) q = Some b.
Proof.
  intros H. rewrite Get_lookup, H. unfold balancer.Register.
  apply lookup_insert_eq.
Qed.

(** Names that lower-case differently are not affected by [Register(b)]. *)
Lemma Get_Register_other_lower b m (q : string) :
  ToLower q <> ToLower (balancer.Name b) ->
  balancer.Get (balancer.Register b m) q = balancer.Get m q.
Proof.
  intros H. rewrite !Get_lookup. unfold balancer.Register.
  apply lookup_insert_ne. congruence.
Qed.

(** C7. After [balancer.Register(b)], [balancer.Get] returns [b] for every
    case variant of [b]'s declared name, because registration and lookup
    both lower-case the name; with declared name "Foo" this holds for "foo"
    and "FOO".  After [resolver.Register(rb)], [resolver.Get] returns [rb]
    for the declared scheme and is unchanged for every other string, so in
    an otherwise empty registry the lookup succeeds only for the exact
    scheme string; with declared scheme "Foo", "foo" and "FOO" are not
    found. *)
Theorem registry_round_trip b m (rb : resolver.Builder)
    (rm : gmap string resolver.Builder) :
  (forall q : string,
     case_variant (balancer.Name b) q = true ->
     balancer.Get (balancer.Register b m) q = Some b)
  /\ (forall parse,
        let foo := balancer.mkBuilder "Foo" parse in
        balancer.Get (balancer.Register foo m) "foo" = Some foo
        /\ balancer.Get (balancer.Register foo m) "FOO" = Some foo
        /\ balancer.Get (balancer.Register foo m) "Foo" = Some foo)
  /\ resolver.Get (resolver.Register rb rm) (resolver.Scheme rb) = Some rb
  /\ (forall s : string,
        s <> resolver.Scheme rb ->
        resolver.Get (resolver.Register rb rm) s = resolver.Get rm s)
  /\ (forall s : string,
        is_Some (resolver.Get (resolver.Register rb ∅) s)
        <-> s = resolver.Scheme rb)
  /\ (forall t : nat,
        let foo := resolver.mkBuilder "Foo" t in
        resolver.Get (resolver.Register foo ∅) "Foo" = Some foo
        /\ resolver.Get (resolver.Register foo ∅) "foo" = None
        /\ resolver.Get (resolver.Register foo ∅) "FOO" = None).
Proof.
  assert (Hres : forall (x : resolver.Builder) (k : gmap string resolver.Builder)
                        (s : string),
             resolver.Get (resolver.Register x k) s
             = if decide (resolver.Scheme x = s) then Some x
               else resolver.Get k s).
  { intros x k s. unfold resolver.Get, resolver.Register.
    rewrite lookup_insert. destruct (decide (resolver.Scheme x = s)); reflexivity. }
  split; [| split; [| split; [| split; [| split]]]].
  - intros q Hq. apply Get_Register_same_lower.
    symmetry. apply case_variant_ToLower, Hq.
  - intros parse foo.
    repeat split; apply Get_Register_same_lower; reflexivity.
  - rewrite Hres, decide_True by reflexivity. reflexivity.
  - intros s Hs. rewrite Hres, decide_False by congruence. reflexivity.
  - intros s. rewrite Hres.
    destruct (decide (resolver.Scheme rb = s)) as [Hs|Hs].
    + split; [congruence | eauto].
    + unfold resolver.Get. rewrite lookup_empty.
      split; [intros [x Hx]; discriminate | congruence].
  - intros t foo. rewrite !Hres. repeat split.
Qed.

(** C10. [unregisterForTesting] deletes the exact key it is given.  For a
    builder whose declared name is not already lower-case (such as "Foo",
    stored under "foo"): unregistering the declared name, or any key other
    than the lower-cased name, leaves the builder registered, and [Get]
    still returns it for every case variant of the name; unregistering the
    lower-cased name removes it, and [Get] then returns nil for every case
    variant. *)
Theorem unregister_exact_key b m :
  balancer.Name b <> ToLower (balancer.Name b) ->
  (forall q : string,
     case_variant (balancer.Name b) q = true ->
     balancer.Get
       (balancer.unregisterForTesting (balancer.Name b) (balancer.Register b m))
       q = Some b)
  /\ (forall k q : string,
        k <> ToLower (balancer.Name b) ->
        case_variant (balancer.Name b) q = true ->
        balancer.Get (balancer.unregisterForTesting k (balancer.Register b m)) q
        = Some b)
  /\ (forall q : string,
        case_variant (balancer.Name b) q = true ->
        balancer.Get
          (balancer.unregisterForTesting (ToLower (balancer.Name b))
             (balancer.Register b m))
          q = None).
Proof.
  intros Hname.
  assert (Hkeep : forall k q : string,
             k <> ToLower (balancer.Name b) ->
             case_variant (balancer.Name b) q = true ->
             balancer.Get
               (balancer.unregisterForTesting k (balancer.Register b m)) q
             = Some b).
  { intros k q Hk Hq. apply case_variant_ToLower in Hq.
    rewrite Get_lookup, <- Hq.
    unfold balancer.unregisterForTesting, balancer.Register.
    rewrite lookup_delete_ne by exact Hk. apply lookup_insert_eq. }
  split; [| split].
  - intros q Hq. apply Hkeep; assumption.
  - exact Hkeep.
  - intros q Hq. apply case_variant_ToLower in Hq.
    rewrite Get_lookup, <- Hq.
    unfold balancer.unregisterForTesting. apply lookup_delete_eq.
Qed.

End Balancer.

Lemma unregister_exact_key_witness :
  balancer.Get
    (balancer.unregisterForTesting "Foo"
       (balancer.Register (balancer.mkBuilder "Foo" None) ∅))
    "FOO"
  = Some (@balancer.mkBuilder unit unit "Foo" None).
Proof.
  refine (proj1 (unregister_exact_key (balancer.mkBuilder "Foo" None) ∅ _)
            "FOO" _).
  - intros H. vm_compute in H. congruence.
  - reflexivity.
Defined.

End RegistryFacts.

(** ** BalancerConfig.UnmarshalJSON *)

Module SelectorFacts.

Import serviceconfig.

Section Selector.

Context {LoadBalancingConfig Err : Type}.

Implicit Types m : gmap string (balancer.Builder LoadBalancingConfig Err).
Implicit Types bc : BalancerConfig LoadBalancingConfig.
Implicit Types lbcfg : gmap string string.
Implicit Types pre post ir : list (gmap string string).

Lemma range_last_singleton (name jsonCfg : string) :
  range_last {[ name := jsonCfg ]} = (name, jsonCfg).
Proof. unfold range_last. rewrite map_to_list_singleton. reflexivity. Qed.

Lemma size_singleton_eqb (name jsonCfg : string) :
  (size ({[ name := jsonCfg ]} : gmap string string) =? 1) = true.
Proof. rewrite map_size_singleton. reflexivity. Qed.

(** An entry with other than one key ends the loop with an error. *)
Lemma select_malformed m bc (i : nat) lbcfg post :
  size lbcfg <> 1 ->
  select m bc i (lbcfg :: post) = mkOutcome bc [] (Some (NotOnePair i lbcfg)).
Proof.
  intros H. cbn [select].
  destruct (Nat.eqb_spec (size lbcfg) 1) as [E|E]; [contradiction | reflexivity].
Qed.

(** A one-key entry of an unregistered policy is passed over. *)
Lemma select_skipped m bc (i : nat) lbcfg post :
  skipped m lbcfg -> select m bc i (lbcfg :: post) = select m bc (S i) post.
Proof.
  intros (name & jsonCfg & -> & Hget). cbn [select].
  rewrite size_singleton_eqb, range_last_singleton. cbn [negb].
  rewrite Hget. reflexivity.
Qed.

Lemma select_skip_all m bc (i : nat) pre post :
  Forall (skipped m) pre ->
  select m bc i (pre ++ post) = select m bc (i + length pre) post.
Proof.
  intros H. revert i. induction H as [|e pre He Hpre IH]; intros i.
  - cbn. rewrite Nat.add_0_r. reflexivity.
  - cbn [app length]. rewrite select_skipped by exact He.
    rewrite IH. f_equal. lia.
Qed.

(** The loop at a one-key entry of a registered policy: it stops there. *)
Lemma select_registered m bc (i : nat) (name jsonCfg : string) post
    (builder : balancer.Builder LoadBalancingConfig Err) :
  balancer.Get m name = Some builder ->
  select m bc i ({[ name := jsonCfg ]} :: post)
  = match balancer.ParseConfig builder with
    | None =>
        mkOutcome (mkBalancerConfig name (Config bc))
          (if decide (jsonCfg = "{}") then [] else [jsonCfg]) None
    | Some parse =>
        match snd (parse jsonCfg) with
        | Some e =>
            mkOutcome (mkBalancerConfig name (Config bc)) []
              (Some (PolicyParseError name e))
        | None =>
            mkOutcome (mkBalancerConfig name (fst (parse jsonCfg))) [] None
        end
    end.
Proof.
  intros Hget. cbn [select].
  rewrite size_singleton_eqb, range_last_singleton. cbn [negb].
  rewrite Hget. destruct (balancer.ParseConfig builder) as [parse|];
    [| reflexivity].
  destruct (parse jsonCfg) as [cfg [e|]]; reflexivity.
Qed.

(** Entries that select no policy either fail the call or are passed. *)
Lemma select_unselected m bc (i : nat) pre post :
  Forall (unselected m) pre ->
  (exists (j : nat) lbcfg,
      select m bc i (pre ++ post) = mkOutcome bc [] (Some (NotOnePair j lbcfg)))
  \/ select m bc i (pre ++ post) = select m bc (i + length pre) post.
Proof.
  intros H. revert i. induction H as [|e pre He Hpre IH]; intros i.
  - right. cbn. rewrite Nat.add_0_r. reflexivity.
  - cbn [app length]. destruct He as [Hsz|Hsk].
    + left. exists i, e. apply select_malformed, Hsz.
    + rewrite select_skipped by exact Hsk.
      destruct (IH (S i)) as [Hl|Hr]; [left; exact Hl | right].
      rewrite Hr. f_equal. lia.
Qed.

Variable json_Unmarshal : string -> Err + list (gmap string string).

(** C1. When the decoded list has, at position [i], a one-key entry naming
    a registered policy, after [i] one-key entries of unregistered
    policies: the entries before [i] are passed over without error and the
    call ends at entry [i].  The returned error is nil unless that policy's
    parser fails; on success [Name] is the key of entry [i] and [Config] is
    what the policy's [ParseConfig] returned for the entry's raw config
    (if the builder has no [ParseConfig], [Config] is left as it was).  The
    entries after [i] are not consulted: any other tail gives the same
    outcome. *)
Theorem UnmarshalJSON_first_registered m bc (b : string) pre
    (name jsonCfg : string) post
    (builder : balancer.Builder LoadBalancingConfig Err) :
  json_Unmarshal b = inr (pre ++ {[ name := jsonCfg ]} :: post) ->
  Forall (skipped m) pre ->
  balancer.Get m name = Some builder ->
  let out := UnmarshalJSON json_Unmarshal m bc b in
  err out
  = match balancer.ParseConfig builder with
    | None => None
    | Some parse =>
        match snd (parse jsonCfg) with
        | Some e => Some (PolicyParseError name e)
        | None => None
        end
    end
  /\ (err out = None ->
      Name (receiver out) = name
      /\ (forall parse, balancer.ParseConfig builder = Some parse ->
                        Config (receiver out) = fst (parse jsonCfg))
      /\ (balancer.ParseConfig builder = None ->
          Config (receiver out) = Config bc))
  /\ (forall (b' : string) post',
        json_Unmarshal b' = inr (pre ++ {[ name := jsonCfg ]} :: post') ->
        UnmarshalJSON json_Unmarshal m bc b' = out).
Proof.
  intros Hdec Hpre Hget out. subst out.
  assert (Hout : forall b0 post0,
             json_Unmarshal b0 = inr (pre ++ {[ name := jsonCfg ]} :: post0) ->
             UnmarshalJSON json_Unmarshal m bc b0
             = select m bc (length pre) [{[ name := jsonCfg ]}]).
  { intros b0 post0 H0. unfold UnmarshalJSON. rewrite H0.
    rewrite select_skip_all by exact Hpre.
    rewrite !(select_registered _ _ _ _ _ _ builder) by exact Hget.
    reflexivity. }
  rewrite (Hout b post Hdec).
  rewrite (select_registered _ _ _ _ _ _ builder) by exact Hget.
  split; [| split].
  - destruct (balancer.ParseConfig builder) as [parse|]; [| reflexivity].
    destruct (snd (parse jsonCfg)); reflexivity.
  - destruct (balancer.ParseConfig builder) as [parse|].
    + destruct (snd (parse jsonCfg)) eqn:E; cbn; [discriminate |].
      intros _. split; [reflexivity | split; [| discriminate]].
      intros parse' [= <-]. reflexivity.
    + cbn. intros _. split; [reflexivity | split; [discriminate | reflexivity]].
  - intros b' post' H'. rewrite (Hout b' post' H').
    rewrite (select_registered _ _ _ _ _ _ builder) by exact Hget.
    reflexivity.
Qed.

(** C2 (as amended). An entry with more or fewer than one key that the
    loop reaches, i.e. one preceded only by one-key entries of unregistered
    policies, fails the whole list: the call returns the "does not contain
    exactly 1 policy/config pair" error for that position, whatever
    follows, and leaves the receiver as it was. *)
Theorem UnmarshalJSON_malformed_entry m bc (b : string) pre lbcfg post :
  json_Unmarshal b = inr (pre ++ lbcfg :: post) ->
  Forall (skipped m) pre ->
  size lbcfg <> 1 ->
  UnmarshalJSON json_Unmarshal m bc b
  = mkOutcome bc [] (Some (NotOnePair (length pre) lbcfg)).
Proof.
  intros Hdec Hpre Hsz. unfold UnmarshalJSON. rewrite Hdec.
  rewrite select_skip_all by exact Hpre.
  apply select_malformed, Hsz.
Qed.

(** C3. When the first entry that names a registered policy with one key
    is preceded only by entries that select nothing, and that policy's
    [ParseConfig] returns an error, the call returns a non-nil error,
    whatever the later entries are; if the entries before it all have one
    key, the error is the parser's, wrapped with the policy name. *)
Theorem UnmarshalJSON_parser_error_fails_list m bc (b : string) pre
    (name jsonCfg : string) post
    (builder : balancer.Builder LoadBalancingConfig Err)
    (parse : string -> option LoadBalancingConfig * option Err) (e : Err) :
  json_Unmarshal b = inr (pre ++ {[ name := jsonCfg ]} :: post) ->
  Forall (unselected m) pre ->
  balancer.Get m name = Some builder ->
  balancer.ParseConfig builder = Some parse ->
  snd (parse jsonCfg) = Some e ->
  err (UnmarshalJSON json_Unmarshal m bc b) <> None
  /\ (Forall (skipped m) pre ->
      err (UnmarshalJSON json_Unmarshal m bc b)
      = Some (PolicyParseError name e)).
Proof.
  intros Hdec Hpre Hget Hparse He. unfold UnmarshalJSON. rewrite Hdec.
  assert (Hat : forall i,
             select m bc i ({[ name := jsonCfg ]} :: post)
             = mkOutcome (mkBalancerConfig name (Config bc)) []
                 (Some (PolicyParseError name e))).
  { intros i. rewrite (select_registered _ _ _ _ _ _ builder) by exact Hget.
    rewrite Hparse, He. reflexivity. }
  split.
  - destruct (select_unselected m bc 0 pre ({[ name := jsonCfg ]} :: post) Hpre)
      as [(j & bad & ->) | ->].
    + discriminate.
    + rewrite Hat. discriminate.
  - intros Hsk. rewrite select_skip_all by exact Hsk. rewrite Hat. reflexivity.
Qed.

(** C6. When every entry of the decoded list has one key and none of the
    keys is a registered policy name (the empty list included), the call
    returns the "no supported policies found" error and leaves the receiver
    as it was. *)
Theorem UnmarshalJSON_no_supported_policy m bc (b : string) ir :
  json_Unmarshal b = inr ir ->
  Forall (skipped m) ir ->
  UnmarshalJSON json_Unmarshal m bc b
  = mkOutcome bc [] (Some NoSupportedPolicies).
Proof.
  intros Hdec Hall. unfold UnmarshalJSON. rewrite Hdec.
  rewrite <- (app_nil_r ir). rewrite select_skip_all by exact Hall.
  reflexivity.
Qed.

(** C9. On the parser-error path the call is not atomic: when the loop
    reaches a one-key entry of a registered policy whose [ParseConfig]
    fails, the call returns a non-nil error, yet the receiver's [Name] is
    already that entry's policy name while [Config] is what it was; a
    receiver with another [Name] is thus not restored. *)
Theorem UnmarshalJSON_parser_error_not_atomic m bc (b : string) pre
    (name jsonCfg : string) post
    (builder : balancer.Builder LoadBalancingConfig Err)
    (parse : string -> option LoadBalancingConfig * option Err) (e : Err) :
  json_Unmarshal b = inr (pre ++ {[ name := jsonCfg ]} :: post) ->
  Forall (skipped m) pre ->
  balancer.Get m name = Some builder ->
  balancer.ParseConfig builder = Some parse ->
  snd (parse jsonCfg) = Some e ->
  let out := UnmarshalJSON json_Unmarshal m bc b in
  err out = Some (PolicyParseError name e)
  /\ Name (receiver out) = name
  /\ Config (receiver out) = Config bc
  /\ (Name bc <> name -> receiver out <> bc).
Proof.
  intros Hdec Hpre Hget Hparse He out. subst out.
  unfold UnmarshalJSON. rewrite Hdec.
  rewrite select_skip_all by exact Hpre.
  rewrite (select_registered _ _ _ _ _ _ builder) by exact Hget.
  rewrite Hparse, He. cbn.
  repeat split. intros Hne Heq. apply Hne. rewrite <- Heq. reflexivity.
Qed.

End Selector.

Import examples.

Lemma unknown_policy_skipped :
  skipped registry {[ "unknown_policy" := "{}" ]}.
Proof. exists "unknown_policy", "{}". split; reflexivity. Defined.

Lemma UnmarshalJSON_first_registered_witness :
  err (UnmarshalJSON json_Unmarshal registry zero wire_fallback) = None
  /\ receiver (UnmarshalJSON json_Unmarshal registry zero wire_fallback)
     = mkBalancerConfig "known_policy" (Some 7).
Proof.
  pose proof (UnmarshalJSON_first_registered json_Unmarshal registry zero
                wire_fallback [ {[ "unknown_policy" := "{}" ]} ]
                "known_policy" x1 [] known_policy eq_refl
                (Forall_cons_2 _ _ _ unknown_policy_skipped (Forall_nil_2 _))
                eq_refl) as (Herr & _ & _).
  split; [exact Herr | reflexivity].
Defined.

Lemma UnmarshalJSON_malformed_entry_witness :
  UnmarshalJSON json_Unmarshal registry zero wire_two_keys
  = mkOutcome zero [] (Some (NotOnePair 0 {[ "a" := "{}"; "b" := "{}" ]})).
Proof.
  apply (UnmarshalJSON_malformed_entry json_Unmarshal registry zero
           wire_two_keys [] {[ "a" := "{}"; "b" := "{}" ]} []).
  - reflexivity.
  - constructor.
  - vm_compute. discriminate.
Defined.

(** C2 as stated fails: a two-key entry placed after the first registered
    policy is never looked at, and the list is accepted. *)
Lemma malformed_after_selected_counterexample :
  json_Unmarshal wire_late_two_keys = inr ir_late_two_keys
  /\ (exists lbcfg, In lbcfg ir_late_two_keys /\ size lbcfg = 2)
  /\ UnmarshalJSON json_Unmarshal registry zero wire_late_two_keys
     = mkOutcome (mkBalancerConfig "known_policy" (Some 2)) [] None.
Proof.
  split; [reflexivity | split; [| reflexivity]].
  exists {[ "a" := "{}"; "b" := "{}" ]}. split; [right; left |]; reflexivity.
Qed.

Lemma UnmarshalJSON_parser_error_fails_list_witness :
  err (UnmarshalJSON json_Unmarshal registry zero wire_strict) <> None.
Proof.
  refine (proj1 (UnmarshalJSON_parser_error_fails_list json_Unmarshal registry
                   zero wire_strict [ {[ "unknown_policy" := "{}" ]} ]
                   "strict_policy" x1 [ {[ "known_policy" := "{}" ]} ]
                   strict_policy _ "unexpected field" eq_refl _ eq_refl
                   eq_refl eq_refl)).
  constructor; [right; exact unknown_policy_skipped | constructor].
Defined.

Lemma UnmarshalJSON_no_supported_policy_witness :
  UnmarshalJSON json_Unmarshal registry zero wire_unknown
  = mkOutcome zero [] (Some NoSupportedPolicies).
Proof.
  apply (UnmarshalJSON_no_supported_policy json_Unmarshal registry zero
           wire_unknown ir_unknown eq_refl).
  constructor; [exact unknown_policy_skipped | constructor].
Defined.

Lemma UnmarshalJSON_parser_error_not_atomic_witness :
  err (UnmarshalJSON json_Unmarshal registry zero wire_strict)
  = Some (PolicyParseError "strict_policy" "unexpected field")
  /\ receiver (UnmarshalJSON json_Unmarshal registry zero wire_strict)
     = mkBalancerConfig "strict_policy" None.
Proof.
  pose proof (UnmarshalJSON_parser_error_not_atomic json_Unmarshal registry
                zero wire_strict [ {[ "unknown_policy" := "{}" ]} ]
                "strict_policy" x1 [ {[ "known_policy" := "{}" ]} ]
                strict_policy _ "unexpected field" eq_refl
                (Forall_cons_2 _ _ _ unknown_policy_skipped (Forall_nil_2 _))
                eq_refl eq_refl eq_refl) as (Herr & _ & _ & _).
  split; [exact Herr | reflexivity].
Defined.

End SelectorFacts.

(** ** More on the evaluator: sequences of calls *)

Module EvaluatorSequences.

Import connectivity evaluator callseq EvaluatorFacts.
Local Open Scope Z_scope.

Lemma record_all_fst (cse : ConnectivityStateEvaluator)
    (calls : list (State * State)) (last last' : option State) :
  fst (record_all cse calls last) = fst (record_all cse calls last').
Proof.
  revert cse last last'. induction calls as [|[o n] rest IH]; intros; cbn.
  - reflexivity.
  - apply IH.
Qed.

Lemma after_cons (cse : ConnectivityStateEvaluator) (o n : State)
    (rest : list (State * State)) :
  after cse ((o, n) :: rest) = after (fst (RecordTransition cse o n)) rest.
Proof. unfold after. cbn. apply record_all_fst. Qed.

Lemma delta_compose (s a b c : State) :
  delta s a b + delta s b c = delta s a c.
Proof. unfold delta. repeat destruct (decide _); lia. Qed.

Lemma net_Permutation (s : State) (calls calls' : list (State * State)) :
  Permutation calls calls' -> net s calls = net s calls'.
Proof.
  induction 1 as [| c l l' _ IH | c d l | l l' l'' _ IH1 _ IH2]; cbn.
  - reflexivity.
  - fold (net s l) (net s l'). rewrite IH. reflexivity.
  - fold (net s l). ring.
  - congruence.
Qed.

Lemma after_as_net (cse : ConnectivityStateEvaluator)
    (calls : list (State * State)) :
  wf cse ->
  after cse calls
  = mkCSE (u64.wrap (numReady cse + net Ready calls))
          (u64.wrap (numConnecting cse + net Connecting calls)).
Proof.
  revert cse. induction calls as [|[o n] rest IH]; intros cse Hwf.
  - unfold after. cbn. rewrite !Z.add_0_r.
    destruct Hwf as [Hr Hc]. rewrite !wrap_small by assumption.
    destruct cse; reflexivity.
  - rewrite after_cons, IH by (apply RecordTransition_wf, Hwf).
    rewrite RecordTransition_fst by exact Hwf.
    cbn [numReady numConnecting net fold_right fst snd].
    fold (net Ready rest) (net Connecting rest).
    rewrite !wrap_wrap_add. f_equal; apply (f_equal u64.wrap); ring.
Qed.

(** X1. For an evaluator whose fields hold [uint64] values, the counters
    after any list of [RecordTransition] calls are the starting counters
    plus the net number of entries into [Ready] (into [Connecting]) over
    the whole list, reduced modulo [2^64]. *)
Theorem after_calls_net (cse : ConnectivityStateEvaluator)
    (calls : list (State * State)) :
  wf cse ->
  after cse calls
  = mkCSE (u64.wrap (numReady cse + net Ready calls))
          (u64.wrap (numConnecting cse + net Connecting calls)).
Proof. apply after_as_net. Qed.

Lemma after_calls_net_witness :
  after (mkCSE 1 0) [(Ready, Idle); (Idle, Connecting)] = mkCSE 0 1.
Proof.
  assert (H : wf (mkCSE 1 0)).
  { unfold wf, u64.in_range. cbn. rewrite modulus_val. lia. }
  exact (after_calls_net (mkCSE 1 0) [(Ready, Idle); (Idle, Connecting)] H).
Defined.

(** X2. The evaluator keeps no order: two lists of calls that are
    permutations of each other leave the same counters, hence the same
    aggregate. *)
Theorem after_Permutation (cse : ConnectivityStateEvaluator)
    (calls calls' : list (State * State)) :
  wf cse ->
  Permutation calls calls' ->
  after cse calls = after cse calls'
  /\ evaluate (after cse calls) = evaluate (after cse calls').
Proof.
  intros Hwf Hp.
  assert (H : after cse calls = after cse calls').
  { rewrite !after_as_net by exact Hwf.
    rewrite (net_Permutation Ready _ _ Hp), (net_Permutation Connecting _ _ Hp).
    reflexivity. }
  split; [exact H | rewrite H; reflexivity].
Qed.

Lemma after_Permutation_witness :
  after fresh [(Idle, Connecting); (Connecting, Ready)]
  = after fresh [(Connecting, Ready); (Idle, Connecting)].
Proof.
  assert (H : wf fresh).
  { unfold wf, u64.in_range. cbn. rewrite modulus_val. lia. }
  exact (proj1 (after_Permutation fresh
                  [(Idle, Connecting); (Connecting, Ready)]
                  [(Connecting, Ready); (Idle, Connecting)] H
                  (perm_swap _ _ []))).
Defined.

(** X3. Recording a transition from a state to itself, such as the first
    report [(Idle, Idle)] of a SubConn, leaves the evaluator as it is, even
    when the counter of that state is [0] and wraps down and up again. *)
Theorem RecordTransition_self (cse : ConnectivityStateEvaluator) (s : State) :
  wf cse ->
  RecordTransition cse s s = (cse, evaluate cse).
Proof.
  intros Hwf.
  assert (H : fst (RecordTransition cse s s) = cse).
  { rewrite RecordTransition_fst by exact Hwf.
    unfold delta. destruct Hwf as [Hr Hc].
    repeat destruct (decide _); rewrite ?Z.sub_diag, ?Z.add_0_r;
      rewrite !wrap_small by assumption; destruct cse; reflexivity. }
  rewrite (surjective_pairing (RecordTransition cse s s)).
  rewrite RecordTransition_snd, H. reflexivity.
Qed.

Lemma RecordTransition_self_witness :
  RecordTransition fresh Ready Ready = (fresh, TransientFailure).
Proof.
  assert (H : wf fresh).
  { unfold wf, u64.in_range. cbn. rewrite modulus_val. lia. }
  exact (RecordTransition_self fresh Ready H).
Defined.

(** X4. Two calls that chain, [(a, b)] then [(b, c)], leave the counters
    that the single call [(a, c)] leaves; so recording [(a, b)] and then
    [(b, a)] restores the evaluator. *)
Theorem RecordTransition_chain (cse : ConnectivityStateEvaluator)
    (a b c : State) :
  wf cse ->
  fst (RecordTransition (fst (RecordTransition cse a b)) b c)
  = fst (RecordTransition cse a c)
  /\ fst (RecordTransition (fst (RecordTransition cse a b)) b a) = cse.
Proof.
  intros Hwf.
  assert (Hchain : forall x,
             fst (RecordTransition (fst (RecordTransition cse a b)) b x)
             = fst (RecordTransition cse a x)).
  { intros x.
    rewrite (RecordTransition_fst (fst (RecordTransition cse a b)))
      by (apply RecordTransition_wf, Hwf).
    rewrite !RecordTransition_fst by exact Hwf.
    cbn [numReady numConnecting]. rewrite !wrap_wrap_add.
    rewrite <- !Z.add_assoc, !delta_compose. reflexivity. }
  split; [apply Hchain |].
  rewrite Hchain, RecordTransition_self by exact Hwf. reflexivity.
Qed.

Lemma RecordTransition_chain_witness :
  fst (RecordTransition (fst (RecordTransition fresh Idle Ready)) Ready Idle)
  = fresh.
Proof.
  assert (H : wf fresh).
  { unfold wf, u64.in_range. cbn. rewrite modulus_val. lia. }
  exact (proj2 (RecordTransition_chain fresh Idle Ready Idle H)).
Defined.

(** X5. [RecordTransition] never returns [Idle] or [Shutdown], whatever
    the receiver and the arguments; for [uint64] counters it returns
    [TransientFailure] exactly when both counters are [0] after the
    update. *)
Theorem RecordTransition_range (cse : ConnectivityStateEvaluator)
    (o n : State) :
  snd (RecordTransition cse o n) <> Idle
  /\ snd (RecordTransition cse o n) <> Shutdown
  /\ (wf cse ->
      (snd (RecordTransition cse o n) = TransientFailure
       <-> fst (RecordTransition cse o n) = fresh)).
Proof.
  rewrite RecordTransition_snd.
  split; [| split].
  - unfold evaluate. repeat destruct (_ <? _); discriminate.
  - unfold evaluate. repeat destruct (_ <? _); discriminate.
  - intros Hwf. apply (RecordTransition_wf cse o n) in Hwf.
    destruct (fst (RecordTransition cse o n)) as [r c].
    destruct Hwf as [[Hr _] [Hc _]]. cbn [numReady numConnecting] in *.
    unfold evaluate, fresh. cbn [numReady numConnecting].
    destruct (Z.ltb_spec 0 r) as [Lr|Lr];
      [| destruct (Z.ltb_spec 0 c) as [Lc|Lc]];
      split; intros E; try discriminate; try (injection E; lia);
      try reflexivity; f_equal; lia.
Qed.

End EvaluatorSequences.

(** ** More on histories: what the counters count *)

Module HistoryCounters.

Import connectivity evaluator subconn EvaluatorFacts HistoryFacts.
Local Open Scope Z_scope.

(** X6. The struct comments "number of addrConns in ready state" and "in
    connecting state" hold along every history in which each call passes
    the state its SubConn is really in (initially [Idle]), whatever the
    transitions are, over fewer than [2^64] SubConns: after the calls,
    [numReady] and [numConnecting] are the numbers of SubConns whose last
    recorded state is [Ready] and [Connecting]. *)
Theorem counters_count_subconns (h : list Transition) :
  follows ∅ h = true ->
  Z.of_nat (size (states_after ∅ h)) < 2 ^ 64 ->
  numReady (after fresh (calls h))
  = Z.of_nat (count Ready (states_after ∅ h))
  /\ numConnecting (after fresh (calls h))
     = Z.of_nat (count Connecting (states_after ∅ h)).
Proof.
  intros Hf Hlt.
  destruct (record_all_tracks h ∅ fresh None Hf tracks_fresh Hlt) as [Ht _].
  exact Ht.
Qed.

Lemma counters_count_subconns_witness :
  numReady (after fresh (calls example_history))
  = Z.of_nat (count Ready (states_after ∅ example_history))
  /\ numConnecting (after fresh (calls example_history))
     = Z.of_nat (count Connecting (states_after ∅ example_history)).
Proof.
  apply (counters_count_subconns example_history);
    [reflexivity | vm_compute; reflexivity].
Defined.

End HistoryCounters.

(** ** More on the registries *)

Module RegistryLaws.

Import gostrings RegistryFacts.

Section Balancer.

Context {LoadBalancingConfig Err : Type}.

Implicit Types b : balancer.Builder LoadBalancingConfig Err.
Implicit Types m : gmap string (balancer.Builder LoadBalancingConfig Err).

Lemma not_case_variant (s t : string) :
  case_variant s t = false -> ToLower s <> ToLower t.
Proof.
  intros H E. apply case_variant_ToLower in E. congruence.
Qed.

(** X7. [balancer.Get] is case-insensitive on every registry: two names
    that are case variants of each other get the same answer, found or
    nil. *)
Theorem Get_case_insensitive m (q q' : string) :
  case_variant q q' = true -> balancer.Get m q = balancer.Get m q'.
Proof.
  intros H. apply case_variant_ToLower in H.
  rewrite !Get_lookup, H. reflexivity.
Qed.

(** X8. "If multiple Balancers are registered with the same name, the one
    registered last will take effect": when the names of [b1] and [b2] are
    case variants, registering [b2] after [b1] leaves the registry that
    registering [b2] alone leaves, and [Get] returns [b2]. *)
Theorem Register_last_wins b1 b2 m :
  case_variant (balancer.Name b1) (balancer.Name b2) = true ->
  balancer.Register b2 (balancer.Register b1 m) = balancer.Register b2 m
  /\ balancer.Get (balancer.Register b2 (balancer.Register b1 m))
       (balancer.Name b1) = Some b2.
Proof.
  intros H. apply case_variant_ToLower in H.
  assert (E : balancer.Register b2 (balancer.Register b1 m)
              = balancer.Register b2 m).
  { unfold balancer.Register. rewrite H. apply insert_insert_eq. }
  split; [exact E |].
  rewrite E. apply Get_Register_same_lower. exact H.
Qed.


(** X10. Registering a builder under a name that was free and then
    unregistering the lower-cased name gives back the registry as it
    was. *)
Theorem Register_unregister_round_trip b m :
  balancer.Get m (balancer.Name b) = None ->
  balancer.unregisterForTesting (ToLower (balancer.Name b))
    (balancer.Register b m) = m.
Proof.
  rewrite Get_lookup. intros H.
  unfold balancer.unregisterForTesting, balancer.Register.
  apply delete_insert_id, H.
Qed.

Lemma keyed_apply m (c : callseq.call LoadBalancingConfig Err) :
  callseq.keyed_by_lower_name m -> callseq.keyed_by_lower_name (callseq.apply m c).
Proof.
  intros Hm k b. destruct c as [b0|name]; cbn.
  - unfold balancer.Register. rewrite lookup_insert.
    destruct (decide (ToLower (balancer.Name b0) = k)) as [<-|Hk].
    + intros [= ->]. reflexivity.
    + apply Hm.
  - unfold balancer.unregisterForTesting. rewrite lookup_delete.
    destruct (decide (name = k)); [discriminate | apply Hm].
Qed.

Lemma keyed_run (cs : list (callseq.call LoadBalancingConfig Err)) m :
  callseq.keyed_by_lower_name m -> callseq.keyed_by_lower_name (callseq.run cs m).
Proof.
  revert m. induction cs as [|c cs IH]; intros m Hm; cbn.
  - exact Hm.
  - apply IH, keyed_apply, Hm.
Qed.


End Balancer.

Lemma Get_case_insensitive_witness :
  balancer.Get examples.registry "Known_Policy"
  = balancer.Get examples.registry "KNOWN_POLICY".
Proof.
  apply (Get_case_insensitive examples.registry); reflexivity.
Defined.

Lemma Register_last_wins_witness :
  balancer.Get
    (balancer.Register (balancer.mkBuilder "FOO" None)
       (balancer.Register (@balancer.mkBuilder unit unit "foo" None) ∅))
    "foo"
  = Some (balancer.mkBuilder "FOO" None).
Proof.
  refine (proj2 (Register_last_wins (balancer.mkBuilder "foo" None)
                   (balancer.mkBuilder "FOO" None) ∅ _)).
  reflexivity.
Defined.


Lemma Register_unregister_round_trip_witness :
  balancer.unregisterForTesting "foo"
    (balancer.Register (@balancer.mkBuilder unit unit "Foo" None) ∅) = ∅.
Proof.
  apply (Register_unregister_round_trip (balancer.mkBuilder "Foo" None) ∅).
  reflexivity.
Defined.


(** *** Package resolver *)

Import resolver_pkg.

Lemma resolver_Get_lookup (k : gmap string resolver.Builder) (s : string) :
  resolver.Get k s = k !! s.
Proof. unfold resolver.Get. destruct (k !! s); reflexivity. Qed.

(** X12. [resolver.UnregisterForTesting] undoes [resolver.Register] under
    the exact scheme only: after registering [b] and unregistering [s], the
    scheme [s] is not found, [b]'s scheme (if other than [s]) finds [b], and
    every other scheme answers as before; when [b]'s scheme was free,
    unregistering it gives back the map as it was. *)
Theorem resolver_Register_unregister (b : resolver.Builder)
    (k : gmap string resolver.Builder) (s t : string) :
  resolver.Get (resolver.UnregisterForTesting s (resolver.Register b k)) t
  = (if decide (t = s) then None
     else if decide (t = resolver.Scheme b) then Some b
     else resolver.Get k t)
  /\ (resolver.Get k (resolver.Scheme b) = None ->
      resolver.UnregisterForTesting (resolver.Scheme b) (resolver.Register b k)
      = k).
Proof.
  split.
  - rewrite !resolver_Get_lookup.
    unfold resolver.UnregisterForTesting, resolver.Register.
    rewrite lookup_delete. destruct (decide (t = s)) as [->|Hts].
    + rewrite decide_True by reflexivity. reflexivity.
    + rewrite decide_False by congruence. rewrite lookup_insert.
      destruct (decide (t = resolver.Scheme b)) as [->|Htb].
      * rewrite decide_True by reflexivity. reflexivity.
      * rewrite decide_False by congruence. reflexivity.
  - rewrite resolver_Get_lookup. intros H.
    unfold resolver.UnregisterForTesting, resolver.Register.
    apply delete_insert_id, H.
Qed.

Lemma keyed_by_scheme_run (cs : list call) (v : vars) :
  keyed_by_scheme v -> keyed_by_scheme (run cs v).
Proof.
  revert v. induction cs as [|c cs IH]; intros v Hv; cbn.
  - exact Hv.
  - apply IH. intros s b. destruct c as [b0|s0|s0]; cbn.
    + unfold resolver.Register. rewrite lookup_insert.
      destruct (decide (resolver.Scheme b0 = s)) as [<-|Hs].
      * intros [= ->]. reflexivity.
      * apply Hv.
    + unfold resolver.UnregisterForTesting. rewrite lookup_delete.
      destruct (decide (s0 = s)); [discriminate | apply Hv].
    + apply Hv.
Qed.

(** X13. From the initial package state, after any calls to [Register],
    [UnregisterForTesting] and [SetDefaultScheme], [resolver.Get(scheme)]
    only ever returns a builder whose [Scheme()] is exactly [scheme]. *)
Theorem resolver_Get_returns_scheme_builder (cs : list call) (s : string)
    (b : resolver.Builder) :
  Get (run cs initial) s = Some b -> resolver.Scheme b = s.
Proof.
  unfold Get. rewrite resolver_Get_lookup. intros H. symmetry.
  apply (keyed_by_scheme_run cs initial); [| exact H].
  intros s0 b0. cbn. rewrite lookup_empty. discriminate.
Qed.

Lemma resolver_Get_returns_scheme_builder_witness :
  resolver.Scheme (resolver.mkBuilder "dns" 1) = "dns".
Proof.
  apply (resolver_Get_returns_scheme_builder
           [CallRegister (resolver.mkBuilder "dns" 0);
            CallSetDefault "dns";
            CallRegister (resolver.mkBuilder "dns" 1);
            CallUnregister "DNS"]
           "dns" (resolver.mkBuilder "dns" 1)).
  reflexivity.
Defined.

Lemma run_keeps_default (cs : list call) (v : vars) :
  forallb keeps_default cs = true ->
  GetDefaultScheme (run cs v) = GetDefaultScheme v.
Proof.
  revert v. induction cs as [|c cs IH]; intros v H; cbn.
  - reflexivity.
  - cbn in H. apply andb_prop in H as [Hc Hcs].
    rewrite IH by exact Hcs. destruct c; [reflexivity | reflexivity | discriminate].
Qed.

Lemma run_app (cs cs' : list call) (v : vars) :
  run (cs ++ cs') v = run cs' (run cs v).
Proof. unfold run. apply fold_left_app. Qed.

(** X14. The default scheme is "passthrough" until it is set;
    [GetDefaultScheme] returns the argument of the last [SetDefaultScheme],
    and registering or unregistering builders does not change it. *)
Theorem default_scheme_last_set (cs cs' : list call) (s : string) (v : vars) :
  forallb keeps_default cs' = true ->
  GetDefaultScheme (run (cs ++ CallSetDefault s :: cs') v) = s
  /\ GetDefaultScheme (run cs' initial) = "passthrough".
Proof.
  intros H. split.
  - rewrite run_app. cbn [run fold_left]. fold (run cs').
    rewrite run_keeps_default by exact H. reflexivity.
  - rewrite run_keeps_default by exact H. reflexivity.
Qed.

Lemma default_scheme_last_set_witness :
  GetDefaultScheme
    (run ([CallSetDefault "dns"] ++ CallSetDefault "unix"
            :: [CallRegister (resolver.mkBuilder "dns" 0)]) initial)
  = "unix".
Proof.
  refine (proj1 (default_scheme_last_set [CallSetDefault "dns"]
                   [CallRegister (resolver.mkBuilder "dns" 0)] "unix" initial _)).
  reflexivity.
Defined.

End RegistryLaws.

(** ** More on BalancerConfig.UnmarshalJSON: every outcome *)

Module SelectorLaws.

Import serviceconfig SelectorFacts.

Section Selector.

Context {LoadBalancingConfig Err : Type}.

Implicit Types m : gmap string (balancer.Builder LoadBalancingConfig Err).
Implicit Types bc : BalancerConfig LoadBalancingConfig.
Implicit Types lbcfg : gmap string string.
Implicit Types pre post ir : list (gmap string string).

Lemma size_1_singleton lbcfg :
  size lbcfg = 1 -> lbcfg = {[ (range_last lbcfg).1 := (range_last lbcfg).2 ]}.
Proof.
  intros H. unfold range_last.
  rewrite <- length_map_to_list in H.
  rewrite <- (list_to_map_to_list lbcfg) at 1.
  destruct (map_to_list lbcfg) as [|[k v] [|kv rest]]; cbn in H; try lia.
  reflexivity.
Qed.

(** Where the loop ends: past the last entry, at an entry with other than
    one key, or at a one-key entry of a registered policy. *)
Lemma select_cases m bc (i : nat) ir :
  (Forall (skipped m) ir
   /\ select m bc i ir = mkOutcome bc [] (Some NoSupportedPolicies))
  \/ (exists pre lbcfg post,
        ir = pre ++ lbcfg :: post /\ Forall (skipped m) pre
        /\ size lbcfg <> 1
        /\ select m bc i ir
           = mkOutcome bc [] (Some (NotOnePair (i + length pre) lbcfg)))
  \/ (exists pre (name jsonCfg : string) post
             (builder : balancer.Builder LoadBalancingConfig Err),
        ir = pre ++ {[ name := jsonCfg ]} :: post /\ Forall (skipped m) pre
        /\ balancer.Get m name = Some builder
        /\ select m bc i ir = select m bc 0 [{[ name := jsonCfg ]}]).
Proof.
  revert i. induction ir as [|e ir IH]; intros i.
  - left. split; [constructor | reflexivity].
  - destruct (decide (size e = 1)) as [Hsz|Hsz].
    + pose proof (size_1_singleton e Hsz) as He.
      destruct (range_last e) as [name jsonCfg]. cbn [fst snd] in He.
      destruct (balancer.Get m name) as [builder|] eqn:Hget.
      * right. right. exists [], name, jsonCfg, ir, builder.
        rewrite He. repeat split; [constructor | exact Hget |].
        rewrite !(select_registered _ _ _ _ _ _ builder) by exact Hget.
        reflexivity.
      * assert (Hsk : skipped m e) by (exists name, jsonCfg; auto).
        rewrite select_skipped by exact Hsk.
        destruct (IH (S i)) as [[Hall E] | [(pre & b & post & -> & Hpre & Hb & E)
                               | (pre & n & c & post & bd & -> & Hpre & Hg & E)]].
        -- left. split; [constructor; assumption | exact E].
        -- right. left. exists (e :: pre), b, post.
           repeat split; [constructor; assumption | exact Hb |].
           rewrite E. cbn [length]. do 3 f_equal. lia.
        -- right. right. exists (e :: pre), n, c, post, bd.
           repeat split; [constructor; assumption | exact Hg | exact E].
    + right. left. exists [], e, ir.
      repeat split; [constructor | exact Hsz |].
      rewrite select_malformed by exact Hsz. cbn [length].
      rewrite Nat.add_0_r. reflexivity.
Qed.

(** The outcome at a registered policy, field by field. *)
Lemma select_registered_fields m bc (i : nat) (name jsonCfg : string) post
    (builder : balancer.Builder LoadBalancingConfig Err) :
  balancer.Get m name = Some builder ->
  let out := select m bc i ({[ name := jsonCfg ]} :: post) in
  Name (receiver out) = name
  /\ (err out = None \/ exists e, err out = Some (PolicyParseError name e))
  /\ (err out <> None -> receiver out = mkBalancerConfig name (Config bc))
  /\ (warnings out = []
      \/ (warnings out = [jsonCfg] /\ jsonCfg <> "{}"
          /\ balancer.ParseConfig builder = None /\ err out = None
          /\ Config (receiver out) = Config bc)).
Proof.
  intros Hget out. subst out.
  rewrite (select_registered _ _ _ _ _ _ builder) by exact Hget.
  destruct (balancer.ParseConfig builder) as [parse|].
  - destruct (snd (parse jsonCfg)) as [e|]; cbn;
      repeat split; eauto; congruence.
  - cbn. repeat split; eauto; try congruence.
    destruct (decide (jsonCfg = "{}")); [left | right]; auto.
Qed.

Variable json_Unmarshal : string -> Err + list (gmap string string).

(** X15. An entry with exactly one key is the map holding just the pair
    that the empty [for name, jsonCfg = range lbcfg] loop leaves in its
    variables: after the [len(lbcfg) != 1] check, [name] and [jsonCfg] are
    the entry's only key and value. *)
Theorem range_last_only_pair lbcfg :
  size lbcfg = 1 ->
  lbcfg = {[ (range_last lbcfg).1 := (range_last lbcfg).2 ]}.
Proof. apply size_1_singleton. Qed.

(** X16. [UnmarshalJSON] returns nil only when the decoded list has a
    one-key entry naming a registered policy that is preceded by one-key
    entries of unregistered policies only; [Name] is then that entry's
    key. *)
Theorem UnmarshalJSON_success_shape m bc (b : string) ir :
  json_Unmarshal b = inr ir ->
  err (UnmarshalJSON json_Unmarshal m bc b) = None ->
  exists pre (name jsonCfg : string) post
         (builder : balancer.Builder LoadBalancingConfig Err),
    ir = pre ++ {[ name := jsonCfg ]} :: post
    /\ Forall (skipped m) pre
    /\ balancer.Get m name = Some builder
    /\ Name (receiver (UnmarshalJSON json_Unmarshal m bc b)) = name.
Proof.
  intros Hdec. unfold UnmarshalJSON. rewrite Hdec. intros Herr.
  destruct (select_cases m bc 0 ir)
    as [[_ E] | [(pre & e & post & _ & _ & _ & E)
       | (pre & n & c & post & bd & Hir & Hpre & Hg & E)]].
  - rewrite E in Herr. discriminate.
  - rewrite E in Herr. discriminate.
  - exists pre, n, c, post, bd. repeat split; try assumption.
    rewrite E. apply (select_registered_fields m bc 0 n c [] bd Hg).
Qed.

(** X17. [UnmarshalJSON] returns "no supported policies found" exactly
    when every entry of the decoded list has one key that names no
    registered policy. *)
Theorem UnmarshalJSON_no_supported_iff m bc (b : string) ir :
  json_Unmarshal b = inr ir ->
  err (UnmarshalJSON json_Unmarshal m bc b) = Some NoSupportedPolicies
  <-> Forall (skipped m) ir.
Proof.
  intros Hdec. unfold UnmarshalJSON. rewrite Hdec. split.
  - intros Herr.
    destruct (select_cases m bc 0 ir)
      as [[Hall _] | [(pre & e & post & _ & _ & _ & E)
         | (pre & n & c & post & bd & _ & _ & Hg & E)]].
    + exact Hall.
    + rewrite E in Herr. discriminate.
    + rewrite E in Herr.
      destruct (select_registered_fields m bc 0 n c [] bd Hg)
        as (_ & [H | [e H]] & _); rewrite H in Herr; discriminate.
  - intros Hall. rewrite <- (app_nil_r ir).
    rewrite select_skip_all by exact Hall. reflexivity.
Qed.

(** X18. When [UnmarshalJSON] returns "entry i does not contain exactly 1
    policy/config pair", [i] is the position of the reported entry in the
    decoded list, the entry has other than one key, and every entry before
    it has one key naming an unregistered policy. *)
Theorem UnmarshalJSON_not_one_pair_position m bc (b : string) ir (i : nat)
    lbcfg :
  json_Unmarshal b = inr ir ->
  err (UnmarshalJSON json_Unmarshal m bc b) = Some (NotOnePair i lbcfg) ->
  ir !! i = Some lbcfg
  /\ size lbcfg <> 1
  /\ Forall (skipped m) (take i ir).
Proof.
  intros Hdec. unfold UnmarshalJSON. rewrite Hdec. intros Herr.
  destruct (select_cases m bc 0 ir)
    as [[_ E] | [(pre & e & post & Hir & Hpre & Hsz & E)
       | (pre & n & c & post & bd & _ & _ & Hg & E)]].
  - rewrite E in Herr. discriminate.
  - rewrite E in Herr. cbn in Herr. injection Herr as <- <-. subst ir.
    split; [| split].
    + rewrite lookup_app_r by lia. rewrite Nat.sub_diag. reflexivity.
    + exact Hsz.
    + rewrite take_app_length. exact Hpre.
  - rewrite E in Herr.
    destruct (select_registered_fields m bc 0 n c [] bd Hg)
      as (_ & [H | [e H]] & _); rewrite H in Herr; discriminate.
Qed.

(** X19. What an error leaves in the receiver: [Config] is never written
    on an error return, and on every error other than a policy's parser
    error the whole receiver is as it was; a decoding error of
    [json.Unmarshal] is returned as it is, and only then. *)
Theorem UnmarshalJSON_error_receiver m bc (b : string) :
  (err (UnmarshalJSON json_Unmarshal m bc b) <> None ->
   Config (receiver (UnmarshalJSON json_Unmarshal m bc b)) = Config bc)
  /\ (err (UnmarshalJSON json_Unmarshal m bc b) <> None ->
      (forall name e,
         err (UnmarshalJSON json_Unmarshal m bc b)
         <> Some (PolicyParseError name e)) ->
      receiver (UnmarshalJSON json_Unmarshal m bc b) = bc)
  /\ (forall e,
        err (UnmarshalJSON json_Unmarshal m bc b) = Some (DecodeError e)
        <-> json_Unmarshal b = inl e).
Proof.
  unfold UnmarshalJSON. destruct (json_Unmarshal b) as [e0|ir].
  - cbn. repeat split; try congruence.
  - destruct (select_cases m bc 0 ir)
      as [[_ E] | [(pre & e & post & _ & _ & _ & E)
         | (pre & n & c & post & bd & _ & _ & Hg & E)]];
      rewrite E; cbn [err receiver Config].
    + repeat split; try reflexivity; discriminate.
    + repeat split; try reflexivity; discriminate.
    + destruct (select_registered_fields m bc 0 n c [] bd Hg)
        as (_ & Herr & Hrec & _).
      split; [| split].
      * intros Hne. rewrite (Hrec Hne). reflexivity.
      * intros Hne Hnp. destruct Herr as [H | [e H]];
          [contradiction | exfalso; exact (Hnp _ _ H)].
      * intros e. split; [| discriminate].
        destruct Herr as [H | [e' H]]; rewrite H; discriminate.
Qed.

(** X20. At most one warning is logged per call, and only on a successful
    return: the warning carries a raw config other than "{}" given to a
    registered policy that has no [ParseConfig], and [Config] is then left
    as it was. *)
Theorem UnmarshalJSON_warnings m bc (b : string) :
  let out := UnmarshalJSON json_Unmarshal m bc b in
  length (warnings out) <= 1
  /\ (forall w, In w (warnings out) ->
        w <> "{}" /\ err out = None /\ Config (receiver out) = Config bc
        /\ exists builder,
             balancer.Get m (Name (receiver out)) = Some builder
             /\ balancer.ParseConfig builder = None).
Proof.
  intros out. subst out.
  unfold UnmarshalJSON. destruct (json_Unmarshal b) as [e0|ir].
  - cbn. split; [lia | contradiction].
  - destruct (select_cases m bc 0 ir)
      as [[_ E] | [(pre & e & post & _ & _ & _ & E)
         | (pre & n & c & post & bd & _ & _ & Hg & E)]];
      rewrite E.
    + cbn. split; [lia | contradiction].
    + cbn. split; [lia | contradiction].
    + destruct (select_registered_fields m bc 0 n c [] bd Hg)
        as (Hname & _ & _ & [Hw | (Hw & Hc & Hp & He & Hcfg)]);
        rewrite Hw; cbn [length In].
      * split; [lia | contradiction].
      * split; [lia |]. intros w [<- | []].
        repeat split; try assumption.
        exists bd. rewrite Hname. auto.
Qed.

(** X21. Decoding the same input again into the receiver a call left
    behind gives the same outcome: the call's result is a fixed point, also
    on the error paths. *)
Theorem UnmarshalJSON_idempotent m bc (b : string) :
  UnmarshalJSON json_Unmarshal m
    (receiver (UnmarshalJSON json_Unmarshal m bc b)) b
  = UnmarshalJSON json_Unmarshal m bc b.
Proof.
  unfold UnmarshalJSON. destruct (json_Unmarshal b) as [e0|ir].
  - reflexivity.
  - destruct (select_cases m bc 0 ir)
      as [[Hall E] | [(pre & e & post & Hir & Hpre & Hsz & E)
         | (pre & n & c & post & bd & Hir & Hpre & Hg & E)]].
    + rewrite E. cbn [receiver]. exact E.
    + rewrite E. cbn [receiver]. exact E.
    + rewrite E. subst ir. rewrite select_skip_all by exact Hpre.
      rewrite !(select_registered _ _ _ _ _ _ bd) by exact Hg.
      destruct (balancer.ParseConfig bd) as [parse|]; [| reflexivity].
      destruct (snd (parse c)); reflexivity.
Qed.

(** X22. The returned error and the warnings do not depend on what the
    receiver held before the call. *)
Theorem UnmarshalJSON_receiver_independent m bc bc' (b : string) :
  err (UnmarshalJSON json_Unmarshal m bc b)
  = err (UnmarshalJSON json_Unmarshal m bc' b)
  /\ warnings (UnmarshalJSON json_Unmarshal m bc b)
     = warnings (UnmarshalJSON json_Unmarshal m bc' b)
  /\ (err (UnmarshalJSON json_Unmarshal m bc b) = None ->
      Name (receiver (UnmarshalJSON json_Unmarshal m bc b))
      = Name (receiver (UnmarshalJSON json_Unmarshal m bc' b))).
Proof.
  unfold UnmarshalJSON. destruct (json_Unmarshal b) as [e0|ir].
  - cbn. repeat split. discriminate.
  - destruct (select_cases m bc 0 ir)
      as [[Hall E] | [(pre & e & post & Hir & Hpre & Hsz & E)
         | (pre & n & c & post & bd & Hir & Hpre & Hg & E)]].
    + rewrite E. rewrite <- (app_nil_r ir).
      rewrite select_skip_all by exact Hall. cbn. repeat split. discriminate.
    + rewrite E. subst ir. rewrite select_skip_all by exact Hpre.
      rewrite select_malformed by exact Hsz. cbn. repeat split. discriminate.
    + rewrite E. subst ir. rewrite select_skip_all by exact Hpre.
      rewrite !(select_registered _ _ _ _ _ _ bd) by exact Hg.
      destruct (balancer.ParseConfig bd) as [parse|]; [| repeat split].
      destruct (snd (parse c)); repeat split.
Qed.

(** X23. Selection composes with registration case-insensitively, but
    [Name] is the key as the list spells it: once [builder] is registered,
    an entry whose one key is any case variant of the builder's name, after
    entries that are passed over, selects that builder, and [Name] is the
    entry's key, not the builder's declared name. *)
Theorem UnmarshalJSON_after_Register m bc (b : string) pre
    (key jsonCfg : string) post
    (builder : balancer.Builder LoadBalancingConfig Err) :
  json_Unmarshal b = inr (pre ++ {[ key := jsonCfg ]} :: post) ->
  Forall (skipped (balancer.Register builder m)) pre ->
  gostrings.case_variant (balancer.Name builder) key = true ->
  let out :=
    UnmarshalJSON json_Unmarshal (balancer.Register builder m) bc b in
  Name (receiver out) = key
  /\ err out
     = match balancer.ParseConfig builder with
       | None => None
       | Some parse =>
           match snd (parse jsonCfg) with
           | Some e => Some (PolicyParseError key e)
           | None => None
           end
       end.
Proof.
  intros Hdec Hpre Hcv out. subst out.
  assert (Hget : balancer.Get (balancer.Register builder m) key = Some builder).
  { apply RegistryFacts.Get_Register_same_lower. symmetry.
    apply RegistryFacts.case_variant_ToLower, Hcv. }
  unfold UnmarshalJSON. rewrite Hdec.
  rewrite select_skip_all by exact Hpre.
  rewrite (select_registered _ _ _ _ _ _ builder) by exact Hget.
  destruct (balancer.ParseConfig builder) as [parse|]; [| split; reflexivity].
  destruct (snd (parse jsonCfg)); split; reflexivity.
Qed.

(** X24. A registered policy without [ParseConfig] is selected with
    success whatever its raw config is: [Name] is set, [Config] is left as
    it was, and a warning is logged exactly when the raw config is not the
    text "{}". *)
Theorem UnmarshalJSON_no_parser m bc (b : string) pre (name jsonCfg : string)
    post (builder : balancer.Builder LoadBalancingConfig Err) :
  json_Unmarshal b = inr (pre ++ {[ name := jsonCfg ]} :: post) ->
  Forall (skipped m) pre ->
  balancer.Get m name = Some builder ->
  balancer.ParseConfig builder = None ->
  UnmarshalJSON json_Unmarshal m bc b
  = mkOutcome (mkBalancerConfig name (Config bc))
      (if decide (jsonCfg = "{}") then [] else [jsonCfg]) None.
Proof.
  intros Hdec Hpre Hget Hnone. unfold UnmarshalJSON. rewrite Hdec.
  rewrite select_skip_all by exact Hpre.
  rewrite (select_registered _ _ _ _ _ _ builder) by exact Hget.
  rewrite Hnone. reflexivity.
Qed.

End Selector.

Import examples.

Lemma range_last_only_pair_witness :
  ({[ "a" := "{}" ]} : gmap string string)
  = {[ (range_last {[ "a" := "{}" ]}).1 := (range_last {[ "a" := "{}" ]}).2 ]}.
Proof. apply (range_last_only_pair {[ "a" := "{}" ]}). reflexivity. Defined.

Lemma UnmarshalJSON_success_shape_witness :
  exists pre (name jsonCfg : string) post (builder : balancer.Builder nat string),
    ir_fallback = pre ++ {[ name := jsonCfg ]} :: post
    /\ Forall (skipped registry) pre
    /\ balancer.Get registry name = Some builder
    /\ Name (receiver (UnmarshalJSON json_Unmarshal registry zero wire_fallback))
       = name.
Proof.
  apply (UnmarshalJSON_success_shape json_Unmarshal registry zero
           wire_fallback ir_fallback); reflexivity.
Defined.

Lemma UnmarshalJSON_no_supported_iff_witness :
  err (UnmarshalJSON json_Unmarshal registry zero wire_unknown)
  = Some NoSupportedPolicies
  <-> Forall (skipped registry) ir_unknown.
Proof.
  apply (UnmarshalJSON_no_supported_iff json_Unmarshal registry zero
           wire_unknown ir_unknown).
  reflexivity.
Defined.

Lemma UnmarshalJSON_not_one_pair_position_witness :
  samples.ir_empty_entry !! 1 = Some (∅ : gmap string string)
  /\ size (∅ : gmap string string) <> 1
  /\ Forall (skipped registry) (take 1 samples.ir_empty_entry).
Proof.
  apply (UnmarshalJSON_not_one_pair_position samples.json_Unmarshal registry
           zero samples.wire_empty_entry samples.ir_empty_entry 1 ∅);
    reflexivity.
Defined.

Lemma UnmarshalJSON_after_Register_witness :
  Name (receiver (UnmarshalJSON samples.json_Unmarshal
                    (balancer.Register samples.pick_first registry) zero
                    samples.wire_pick_first))
  = "Pick_First".
Proof.
  refine (proj1 (UnmarshalJSON_after_Register samples.json_Unmarshal registry
                   zero samples.wire_pick_first [] "Pick_First" x1 []
                   samples.pick_first eq_refl _ eq_refl)).
  constructor.
Defined.

Lemma UnmarshalJSON_no_parser_witness :
  UnmarshalJSON samples.json_Unmarshal
    (balancer.Register samples.pick_first registry) zero
    samples.wire_pick_first
  = mkOutcome (mkBalancerConfig "Pick_First" None) [x1] None.
Proof.
  refine (UnmarshalJSON_no_parser samples.json_Unmarshal
            (balancer.Register samples.pick_first registry) zero
            samples.wire_pick_first [] "Pick_First" x1 [] samples.pick_first
            eq_refl _ eq_refl eq_refl).
  constructor.
Defined.

End SelectorLaws.
